(** * Lifecycle orchestrator of pack ([internal/build/build.go])

    A shallow embedding of the lifecycle orchestrator: the mount-path
    resolver, the random volume names, [Setup], [Cleanup] and [Execute].
    The collaborators the orchestrator talks to (the random source, the
    cache volumes, the phase methods defined in other files of the package,
    the container runtime client and the logger) are the [World]: each call
    to one of them is recorded as an [event] of the run together with its
    arguments and its result.

    The embedding follows the control flow of the Go code statement by
    statement. Go panics (a nil [Builder], say) are outside of it, and the
    collaborators leave the fields of the receiver as they are. *)

From Stdlib Require Import String Ascii List Bool Arith Lia.
Import ListNotations.
Open Scope string_scope.

(** ** Errors ([error], [github.com/pkg/errors]) *)

(** A non-nil Go [error]: either an error produced by a collaborator, or an
    error annotated by [errors.Wrap]/[errors.Wrapf]. A Go value of type
    [error] is an [option error], [None] being [nil]. *)
Inductive error : Type :=
| ErrNew (msg : string)
| ErrWrap (cause : error) (msg : string).

(** [errors.Wrap(err, msg)] for a non-nil [err]. *)
Definition Wrap (err : error) (msg : string) : error := ErrWrap err msg.

(** [Error()] of a wrapped error is ["msg: " + cause.Error()]. *)
Fixpoint Error (e : error) : string :=
  match e with
  | ErrNew m => m
  | ErrWrap c m => m ++ ": " ++ Error c
  end.

(** [x] occurs in the chain of [r]: [r] is [x] or wraps an error in whose
    chain [x] occurs. *)
Fixpoint Within (x r : error) : Prop :=
  x = r \/ match r with
           | ErrNew _ => False
           | ErrWrap c _ => Within x c
           end.

(** ** Contexts ([context.Context]) *)

(** [context.Background()] is never cancelled; a context handed in by a
    caller has an identity and may already be cancelled. *)
Inductive context : Type :=
| Background
| Caller (id : nat) (cancelled : bool).

(** ** The mount-path resolver *)

Module MountPaths.
Record t : Type := { prefix : string }.
End MountPaths.

Definition mountPathsForOS (os : string) : MountPaths.t :=
  let prefix := "/" in
  let prefix := if String.eqb os "windows" then "c:\" else prefix in
  {| MountPaths.prefix := prefix |}.

Definition layersDir (m : MountPaths.t) : string := MountPaths.prefix m ++ "layers".
Definition appDirName (m : MountPaths.t) : string := "workspace".
Definition appDir (m : MountPaths.t) : string := MountPaths.prefix m ++ appDirName m.
Definition cacheDir (m : MountPaths.t) : string := MountPaths.prefix m ++ "cache".
Definition launchCacheDir (m : MountPaths.t) : string := MountPaths.prefix m ++ "launch-cache".
Definition platformDir (m : MountPaths.t) : string := MountPaths.prefix m ++ "platform".

(** ** Builder, options and the orchestrator's session state *)

(** [SupportedPlatformAPIVersions] lists the Platform API versions pack supports. *)
Definition SupportedPlatformAPIVersions : list string := ["0.2"; "0.3"].

(** [imgutil.Image]: only [OS() (string, error)] is used. *)
Module Image.
Record t : Type := { OS : string + error }.
End Image.

(** [builder.LifecycleDescriptor]: [Info.Version.String()] and
    [API.PlatformVersion.String()]. *)
Module LifecycleDescriptor.
Record t : Type := { Info_Version : string; API_PlatformVersion : string }.
End LifecycleDescriptor.

(** The [Builder] interface, as the results of its methods. *)
Module Builder.
Record t : Type :=
    { Name : string;
      UID : nat;
      GID : nat;
      LifecycleDescriptor : LifecycleDescriptor.t;
      Image : Image.t }.
End Builder.

(** [name.Reference]: only [Name()] is used. *)
Module Reference.
Record t : Type := { Name : string }.
End Reference.

(** [sync.Once]: whether its function has run. *)
Record Once : Type := { done : bool }.

Module Lifecycle.
Record t : Type :=
    { builder : option Builder.t;
      appPath : string;
      appOnce : option Once;
      httpProxy : string;
      httpsProxy : string;
      noProxy : string;
      version : string;
      platformAPIVersion : string;
      LayersVolume : string;
      AppVolume : string;
      Volumes : list string;
      DefaultProcessType : string;
      fileFilter : option (string -> bool);
      os : string;
      mountPaths : MountPaths.t }.

Definition set_LayersVolume (v : string) (l : t) : t :=
    {| builder := builder l; appPath := appPath l; appOnce := appOnce l;
       httpProxy := httpProxy l; httpsProxy := httpsProxy l; noProxy := noProxy l;
       version := version l; platformAPIVersion := platformAPIVersion l; LayersVolume := v;
       AppVolume := AppVolume l; Volumes := Volumes l; DefaultProcessType := DefaultProcessType l;
       fileFilter := fileFilter l; os := os l; mountPaths := mountPaths l |}.

Definition set_AppVolume (v : string) (l : t) : t :=
    {| builder := builder l; appPath := appPath l; appOnce := appOnce l;
       httpProxy := httpProxy l; httpsProxy := httpsProxy l; noProxy := noProxy l;
       version := version l; platformAPIVersion := platformAPIVersion l; LayersVolume := LayersVolume l;
       AppVolume := v; Volumes := Volumes l; DefaultProcessType := DefaultProcessType l;
       fileFilter := fileFilter l; os := os l; mountPaths := mountPaths l |}.

Definition set_appPath (v : string) (l : t) : t :=
    {| builder := builder l; appPath := v; appOnce := appOnce l;
       httpProxy := httpProxy l; httpsProxy := httpsProxy l; noProxy := noProxy l;
       version := version l; platformAPIVersion := platformAPIVersion l; LayersVolume := LayersVolume l;
       AppVolume := AppVolume l; Volumes := Volumes l; DefaultProcessType := DefaultProcessType l;
       fileFilter := fileFilter l; os := os l; mountPaths := mountPaths l |}.

Definition set_appOnce (v : option Once) (l : t) : t :=
    {| builder := builder l; appPath := appPath l; appOnce := v;
       httpProxy := httpProxy l; httpsProxy := httpsProxy l; noProxy := noProxy l;
       version := version l; platformAPIVersion := platformAPIVersion l; LayersVolume := LayersVolume l;
       AppVolume := AppVolume l; Volumes := Volumes l; DefaultProcessType := DefaultProcessType l;
       fileFilter := fileFilter l; os := os l; mountPaths := mountPaths l |}.

Definition set_builder (v : option Builder.t) (l : t) : t :=
    {| builder := v; appPath := appPath l; appOnce := appOnce l;
       httpProxy := httpProxy l; httpsProxy := httpsProxy l; noProxy := noProxy l;
       version := version l; platformAPIVersion := platformAPIVersion l; LayersVolume := LayersVolume l;
       AppVolume := AppVolume l; Volumes := Volumes l; DefaultProcessType := DefaultProcessType l;
       fileFilter := fileFilter l; os := os l; mountPaths := mountPaths l |}.

Definition set_httpProxy (v : string) (l : t) : t :=
    {| builder := builder l; appPath := appPath l; appOnce := appOnce l;
       httpProxy := v; httpsProxy := httpsProxy l; noProxy := noProxy l;
       version := version l; platformAPIVersion := platformAPIVersion l; LayersVolume := LayersVolume l;
       AppVolume := AppVolume l; Volumes := Volumes l; DefaultProcessType := DefaultProcessType l;
       fileFilter := fileFilter l; os := os l; mountPaths := mountPaths l |}.

Definition set_httpsProxy (v : string) (l : t) : t :=
    {| builder := builder l; appPath := appPath l; appOnce := appOnce l;
       httpProxy := httpProxy l; httpsProxy := v; noProxy := noProxy l;
       version := version l; platformAPIVersion := platformAPIVersion l; LayersVolume := LayersVolume l;
       AppVolume := AppVolume l; Volumes := Volumes l; DefaultProcessType := DefaultProcessType l;
       fileFilter := fileFilter l; os := os l; mountPaths := mountPaths l |}.

Definition set_noProxy (v : string) (l : t) : t :=
    {| builder := builder l; appPath := appPath l; appOnce := appOnce l;
       httpProxy := httpProxy l; httpsProxy := httpsProxy l; noProxy := v;
       version := version l; platformAPIVersion := platformAPIVersion l; LayersVolume := LayersVolume l;
       AppVolume := AppVolume l; Volumes := Volumes l; DefaultProcessType := DefaultProcessType l;
       fileFilter := fileFilter l; os := os l; mountPaths := mountPaths l |}.

Definition set_version (v : string) (l : t) : t :=
    {| builder := builder l; appPath := appPath l; appOnce := appOnce l;
       httpProxy := httpProxy l; httpsProxy := httpsProxy l; noProxy := noProxy l;
       version := v; platformAPIVersion := platformAPIVersion l; LayersVolume := LayersVolume l;
       AppVolume := AppVolume l; Volumes := Volumes l; DefaultProcessType := DefaultProcessType l;
       fileFilter := fileFilter l; os := os l; mountPaths := mountPaths l |}.

Definition set_platformAPIVersion (v : string) (l : t) : t :=
    {| builder := builder l; appPath := appPath l; appOnce := appOnce l;
       httpProxy := httpProxy l; httpsProxy := httpsProxy l; noProxy := noProxy l;
       version := version l; platformAPIVersion := v; LayersVolume := LayersVolume l;
       AppVolume := AppVolume l; Volumes := Volumes l; DefaultProcessType := DefaultProcessType l;
       fileFilter := fileFilter l; os := os l; mountPaths := mountPaths l |}.

Definition set_DefaultProcessType (v : string) (l : t) : t :=
    {| builder := builder l; appPath := appPath l; appOnce := appOnce l;
       httpProxy := httpProxy l; httpsProxy := httpsProxy l; noProxy := noProxy l;
       version := version l; platformAPIVersion := platformAPIVersion l; LayersVolume := LayersVolume l;
       AppVolume := AppVolume l; Volumes := Volumes l; DefaultProcessType := v;
       fileFilter := fileFilter l; os := os l; mountPaths := mountPaths l |}.

Definition set_fileFilter (v : option (string -> bool)) (l : t) : t :=
    {| builder := builder l; appPath := appPath l; appOnce := appOnce l;
       httpProxy := httpProxy l; httpsProxy := httpsProxy l; noProxy := noProxy l;
       version := version l; platformAPIVersion := platformAPIVersion l; LayersVolume := LayersVolume l;
       AppVolume := AppVolume l; Volumes := Volumes l; DefaultProcessType := DefaultProcessType l;
       fileFilter := v; os := os l; mountPaths := mountPaths l |}.

Definition set_os (v : string) (l : t) : t :=
    {| builder := builder l; appPath := appPath l; appOnce := appOnce l;
       httpProxy := httpProxy l; httpsProxy := httpsProxy l; noProxy := noProxy l;
       version := version l; platformAPIVersion := platformAPIVersion l; LayersVolume := LayersVolume l;
       AppVolume := AppVolume l; Volumes := Volumes l; DefaultProcessType := DefaultProcessType l;
       fileFilter := fileFilter l; os := v; mountPaths := mountPaths l |}.

Definition set_mountPaths (v : MountPaths.t) (l : t) : t :=
    {| builder := builder l; appPath := appPath l; appOnce := appOnce l;
       httpProxy := httpProxy l; httpsProxy := httpsProxy l; noProxy := noProxy l;
       version := version l; platformAPIVersion := platformAPIVersion l; LayersVolume := LayersVolume l;
       AppVolume := AppVolume l; Volumes := Volumes l; DefaultProcessType := DefaultProcessType l;
       fileFilter := fileFilter l; os := os l; mountPaths := v |}.

End Lifecycle.

(** [NewLifecycle]: every field but the logger and the client (which are the
    [World]) has its zero value. *)
Definition NewLifecycle : Lifecycle.t :=
  {| Lifecycle.builder := None; Lifecycle.appPath := ""; Lifecycle.appOnce := None;
     Lifecycle.httpProxy := ""; Lifecycle.httpsProxy := ""; Lifecycle.noProxy := "";
     Lifecycle.version := ""; Lifecycle.platformAPIVersion := "";
     Lifecycle.LayersVolume := ""; Lifecycle.AppVolume := ""; Lifecycle.Volumes := [];
     Lifecycle.DefaultProcessType := ""; Lifecycle.fileFilter := None;
     Lifecycle.os := ""; Lifecycle.mountPaths := {| MountPaths.prefix := "" |} |}.

Module LifecycleOptions.
Record t : Type :=
    { AppPath : string;
      Image : Reference.t;
      Builder : Builder.t;
      RunImage : string;
      ClearCache : bool;
      Publish : bool;
      HTTPProxy : string;
      HTTPSProxy : string;
      NoProxy : string;
      Network : string;
      Volumes : list string;
      DefaultProcessType : string;
      FileFilter : option (string -> bool) }.
End LifecycleOptions.

(** ** Collaborators *)

(** [cache.NewVolumeCache(image, suffix, docker)]: the handle of the cache
    volume of an image reference, ["build"] or ["launch"]. *)
Record VolumeCache : Type := { imageRef : Reference.t; suffix : string }.

Definition NewVolumeCache (image : Reference.t) (suffix : string) : VolumeCache :=
  {| imageRef := image; suffix := suffix |}.

(** [NewDefaultPhaseFactory(l)] keeps the lifecycle it was made for. *)
Record PhaseFactory : Type := { lifecycle : Lifecycle.t }.

Definition NewDefaultPhaseFactory (l : Lifecycle.t) : PhaseFactory :=
  {| lifecycle := l |}.

(** The phase methods of [*Lifecycle] that [Execute] calls and whose bodies
    live in other files of the package, with the arguments of the call. *)
Inductive phase_call : Type :=
| prepareAppVolume (ctx : context)
| Detect (ctx : context) (networkMode : string) (volumes : list string)
    (phaseFactory : PhaseFactory)
| Analyze (ctx : context) (repoName cacheName : string) (publish clearCache : bool)
    (phaseFactory : PhaseFactory)
| Restore (ctx : context) (cacheName : string) (phaseFactory : PhaseFactory)
| Build (ctx : context) (networkMode : string) (volumes : list string)
    (phaseFactory : PhaseFactory)
| Export (ctx : context) (repoName runImage : string) (publish : bool)
    (launchCacheName cacheName : string) (phaseFactory : PhaseFactory).

(** The name of the method called. *)
Inductive phase : Type :=
| PrepareAppVolume | DetectPhase | AnalyzePhase | RestorePhase | BuildPhase | ExportPhase.

Definition phase_of (c : phase_call) : phase :=
  match c with
  | prepareAppVolume _ => PrepareAppVolume
  | Detect _ _ _ _ => DetectPhase
  | Analyze _ _ _ _ _ _ => AnalyzePhase
  | Restore _ _ _ => RestorePhase
  | Build _ _ _ _ => BuildPhase
  | Export _ _ _ _ _ _ _ => ExportPhase
  end.

(** What the collaborators answer. None of them is in this file of the
    package, so each is an arbitrary function of what it is called with:
    - [randSource i] is the raw value behind the [i]-th draw of the global
      random source ([rand.Intn n] reduces it below [n]);
    - [cacheName] is [Name()] of a cache volume;
    - [cacheClear] is the result of [Clear(ctx)] on a cache volume;
    - [runPhase] is the result of a phase method on a receiver;
    - [dockerVolumeRemove] is the result of [docker.VolumeRemove]. *)
Record World : Type :=
  { randSource : nat -> nat;
    cacheName : VolumeCache -> string;
    cacheClear : VolumeCache -> context -> option error;
    runPhase : Lifecycle.t -> phase_call -> option error;
    dockerVolumeRemove : context -> string -> bool -> option error }.

(** What a run does that is visible from outside, in the order it does it.
    The styling helpers of package [style] are kept as applied:
    [InfoStep s] is [logger.Info(style.Step(s))] and [Debugf f s] is
    [logger.Debugf(f, style.Symbol(s))]. [CleanupCalled] marks the entry
    into [Cleanup]. *)
Inductive event : Type :=
| Debugf (format : string) (symbol : string)
| InfoStep (name : string)
| Info (msg : string)
| CallOS (result : string + error)
| CallClear (c : VolumeCache) (ctx : context) (result : option error)
| CallPhase (c : phase_call) (result : option error)
| CallVolumeRemove (ctx : context) (name : string) (force : bool) (result : option error)
| CleanupCalled.

(** ** The monad of the orchestrator's methods *)

(** The mutable state of a run: the receiver [l] and the number of values
    drawn so far from the random source. *)
Record state : Type := { self : Lifecycle.t; drawn : nat }.

(** A method returns a value, leaves a state and appends events. *)
Definition M (A : Type) : Type := state -> A * state * list event.

Definition ret {A : Type} (a : A) : M A := fun s => (a, s, []).

Definition bind {A B : Type} (m : M A) (k : A -> M B) : M B :=
  fun s =>
    let '(a, s1, t1) := m s in
    let '(b, s2, t2) := k a s1 in
    (b, s2, (t1 ++ t2)%list).

Declare Scope lifecycle_scope.
Delimit Scope lifecycle_scope with lifecycle.
Notation "x <- m ;; k" := (bind m (fun x => k))
  (at level 100, m at next level, right associativity) : lifecycle_scope.
Notation "m ;; k" := (bind m (fun _ => k))
  (at level 100, right associativity) : lifecycle_scope.
(** [if err := m; err != nil { return err }] followed by [k]. *)
Notation "'check' m ;; k" :=
  (bind m (fun r => match r with Some err => ret (Some err) | None => k end))
  (at level 100, m at next level, right associativity) : lifecycle_scope.
Open Scope lifecycle_scope.

Definition emit (e : event) : M unit := fun s => (tt, s, [e]).
Definition getSelf : M Lifecycle.t := fun s => (self s, s, []).
Definition modifySelf (f : Lifecycle.t -> Lifecycle.t) : M unit :=
  fun s => (tt, {| self := f (self s); drawn := drawn s |}, []).

(** [defer d] around [m]: [d] runs when [m] returns and its own result is
    dropped. *)
Definition defer {A B : Type} (d : M B) (m : M A) : M A :=
  r <- m ;; _ <- d ;; ret r.

(** The result, the final state and the trace of a run. *)
Definition result {A : Type} (x : A * state * list event) : A := fst (fst x).
Definition final {A : Type} (x : A * state * list event) : state := snd (fst x).
Definition trace {A : Type} (x : A * state * list event) : list event := snd x.

Section Orchestrator.

Variable w : World.

(** [rand.Intn(n)]: the next value of the source, below [n]. *)
Definition Intn (n : nat) : M nat :=
  fun s => (randSource w (drawn s) mod n, {| self := self s; drawn := S (drawn s) |}, []).

(** The loop of [randString]: [b[i] = 'a' + byte(rand.Intn(26))] for each
    index of a slice of [n] bytes. *)
Fixpoint randBytes (n : nat) : M (list ascii) :=
  match n with
  | O => ret []
  | S k =>
      d <- Intn 26 ;;
      rest <- randBytes k ;;
      ret (ascii_of_nat (nat_of_ascii "a"%char + d) :: rest)
  end.

Definition randString (n : nat) : M string :=
  b <- randBytes n ;;
  ret (string_of_list_ascii b).

Definition dockerCall_VolumeRemove (ctx : context) (name : string) (force : bool)
  : M (option error) :=
  let r := dockerVolumeRemove w ctx name force in
  emit (CallVolumeRemove ctx name force r) ;; ret r.

Definition Clear (c : VolumeCache) (ctx : context) : M (option error) :=
  let r := cacheClear w c ctx in
  emit (CallClear c ctx r) ;; ret r.

Definition callPhase (c : phase_call) : M (option error) :=
  l <- getSelf ;;
  let r := runPhase w l c in
  emit (CallPhase c r) ;; ret r.

Definition Setup (opts : LifecycleOptions.t) : M (option error) :=
  s1 <- randString 10 ;;
  modifySelf (Lifecycle.set_LayersVolume ("pack-layers-" ++ s1)) ;;
  s2 <- randString 10 ;;
  modifySelf (Lifecycle.set_AppVolume ("pack-app-" ++ s2)) ;;
  modifySelf (Lifecycle.set_appPath (LifecycleOptions.AppPath opts)) ;;
  modifySelf (Lifecycle.set_appOnce (Some {| done := false |})) ;;
  modifySelf (Lifecycle.set_builder (Some (LifecycleOptions.Builder opts))) ;;
  modifySelf (Lifecycle.set_httpProxy (LifecycleOptions.HTTPProxy opts)) ;;
  modifySelf (Lifecycle.set_httpsProxy (LifecycleOptions.HTTPSProxy opts)) ;;
  modifySelf (Lifecycle.set_noProxy (LifecycleOptions.NoProxy opts)) ;;
  modifySelf (Lifecycle.set_version
    (LifecycleDescriptor.Info_Version
       (Builder.LifecycleDescriptor (LifecycleOptions.Builder opts)))) ;;
  modifySelf (Lifecycle.set_platformAPIVersion
    (LifecycleDescriptor.API_PlatformVersion
       (Builder.LifecycleDescriptor (LifecycleOptions.Builder opts)))) ;;
  modifySelf (Lifecycle.set_DefaultProcessType (LifecycleOptions.DefaultProcessType opts)) ;;
  modifySelf (Lifecycle.set_fileFilter (LifecycleOptions.FileFilter opts)) ;;
  (* l.builder is opts.Builder, assigned above *)
  let r := Image.OS (Builder.Image (LifecycleOptions.Builder opts)) in
  emit (CallOS r) ;;
  match r with
  | inr err => ret (Some err)
  | inl os =>
      modifySelf (Lifecycle.set_os os) ;;
      l <- getSelf ;;
      modifySelf (Lifecycle.set_mountPaths (mountPathsForOS (Lifecycle.os l))) ;;
      ret None
  end.

Definition Cleanup : M (option error) :=
  emit CleanupCalled ;;
  l <- getSelf ;;
  let reterr := None in
  r1 <- dockerCall_VolumeRemove Background (Lifecycle.LayersVolume l) true ;;
  let reterr :=
    match r1 with
    | Some err =>
        Some (Wrap err ("failed to clean up layers volume " ++ Lifecycle.LayersVolume l))
    | None => reterr
    end in
  r2 <- dockerCall_VolumeRemove Background (Lifecycle.AppVolume l) true ;;
  let reterr :=
    match r2 with
    | Some err =>
        Some (Wrap err ("failed to clean up app volume " ++ Lifecycle.AppVolume l))
    | None => reterr
    end in
  ret reterr.

(** The part of [Execute] that runs under the deferred [Cleanup]. *)
Definition ExecuteDeferred (ctx : context) (opts : LifecycleOptions.t) : M (option error) :=
  let buildCache := NewVolumeCache (LifecycleOptions.Image opts) "build" in
  let launchCache := NewVolumeCache (LifecycleOptions.Image opts) "launch" in
  emit (Debugf "Using build cache volume %s" (cacheName w buildCache)) ;;
  check (if LifecycleOptions.ClearCache opts
         then
           r <- Clear buildCache ctx ;;
           match r with
           | Some err => ret (Some (Wrap err "clearing build cache"))
           | None =>
               emit (Debugf "Build cache %s cleared" (cacheName w buildCache)) ;;
               ret None
           end
         else ret None) ;;
  l <- getSelf ;;
  let phaseFactory := NewDefaultPhaseFactory l in
  emit (InfoStep "PREPARING") ;;
  check callPhase (prepareAppVolume ctx) ;;
  emit (InfoStep "DETECTING") ;;
  check callPhase (Detect ctx (LifecycleOptions.Network opts)
                     (LifecycleOptions.Volumes opts) phaseFactory) ;;
  emit (InfoStep "ANALYZING") ;;
  check callPhase (Analyze ctx (Reference.Name (LifecycleOptions.Image opts))
                     (cacheName w buildCache) (LifecycleOptions.Publish opts)
                     (LifecycleOptions.ClearCache opts) phaseFactory) ;;
  emit (InfoStep "RESTORING") ;;
  check (if LifecycleOptions.ClearCache opts
         then emit (Info "Skipping 'restore' due to clearing cache") ;; ret None
         else callPhase (Restore ctx (cacheName w buildCache) phaseFactory)) ;;
  emit (InfoStep "BUILDING") ;;
  check callPhase (Build ctx (LifecycleOptions.Network opts)
                     (LifecycleOptions.Volumes opts) phaseFactory) ;;
  emit (InfoStep "EXPORTING") ;;
  check callPhase (Export ctx (Reference.Name (LifecycleOptions.Image opts))
                     (LifecycleOptions.RunImage opts) (LifecycleOptions.Publish opts)
                     (cacheName w launchCache) (cacheName w buildCache) phaseFactory) ;;
  ret None.

Definition Execute (ctx : context) (opts : LifecycleOptions.t) : M (option error) :=
  err <- Setup opts ;;
  match err with
  | Some err => ret (Some err)
  | None => defer Cleanup (ExecuteDeferred ctx opts)
  end.

End Orchestrator.

(** ** Reading runs *)

Open Scope list_scope.

(** The letter [randString] writes for the [i]-th draw of the source, and
    the bytes it writes for [n] draws starting at draw [from]. *)
Definition letter (w : World) (i : nat) : ascii :=
  ascii_of_nat (nat_of_ascii "a"%char + randSource w i mod 26).

Definition letters (w : World) (from n : nat) : list ascii :=
  map (letter w) (seq from n).

(** The lowercase letters ['a'] to ['z'], and every string of [n] of them. *)
Definition letterOf (d : nat) : ascii := ascii_of_nat (nat_of_ascii "a"%char + d).

Definition lowercase : list ascii := map letterOf (seq 0 26).

Fixpoint suffixes (n : nat) : list string :=
  match n with
  | O => [EmptyString]
  | S k => flat_map (fun c => map (String c) (suffixes k)) lowercase
  end.

Definition isLowercase (c : ascii) : Prop :=
  nat_of_ascii "a"%char <= nat_of_ascii c <= nat_of_ascii "z"%char.

(** A world that differs from [w] in its random source only. *)
Definition withRandSource (f : nat -> nat) (w : World) : World :=
  {| randSource := f;
     cacheName := cacheName w;
     cacheClear := cacheClear w;
     runPhase := runPhase w;
     dockerVolumeRemove := dockerVolumeRemove w |}.

(** ASCII case folding, to say that two OS identifiers differ in case only. *)
Definition toLowerAscii (c : ascii) : ascii :=
  let n := nat_of_ascii c in
  if Nat.leb (nat_of_ascii "A"%char) n && Nat.leb n (nat_of_ascii "Z"%char)
  then ascii_of_nat (n + 32) else c.

Fixpoint toLower (s : string) : string :=
  match s with
  | EmptyString => EmptyString
  | String c r => String (toLowerAscii c) (toLower r)
  end.

(** A random source whose draws from draw [from] on are the numbers [ds]. *)
Definition sourceOf (from : nat) (ds : list nat) : nat -> nat :=
  fun i => nth (i - from) ds 0.

(** *** Observing a trace *)

Definition isPhaseCall (e : event) : bool :=
  match e with CallPhase _ _ => true | _ => false end.

Definition isCleanupCalled (e : event) : bool :=
  match e with CleanupCalled => true | _ => false end.

Definition isVolumeRemove (e : event) : bool :=
  match e with CallVolumeRemove _ _ _ _ => true | _ => false end.

(** The phase methods invoked, in the order of their invocation. *)
Definition phasesOf (t : list event) : list phase :=
  flat_map (fun e => match e with CallPhase c _ => [phase_of c] | _ => [] end) t.

(** The step messages logged, in the order they were logged. *)
Definition stepsOf (t : list event) : list string :=
  flat_map (fun e => match e with InfoStep n => [n] | _ => [] end) t.

(** How many times [Cleanup] was entered. *)
Definition timesCleanupCalled (t : list event) : nat :=
  length (filter isCleanupCalled t).

(** The step message that announces a phase. *)
Definition stepName (p : phase) : string :=
  match p with
  | PrepareAppVolume => "PREPARING"
  | DetectPhase => "DETECTING"
  | AnalyzePhase => "ANALYZING"
  | RestorePhase => "RESTORING"
  | BuildPhase => "BUILDING"
  | ExportPhase => "EXPORTING"
  end.

Definition allPhases : list phase :=
  [PrepareAppVolume; DetectPhase; AnalyzePhase; RestorePhase; BuildPhase; ExportPhase].

Definition allSteps : list string := map stepName allPhases.

(** The phases of a run in which no phase fails: all of them, but for
    [Restore] when the cache is cleared. *)
Definition expectedPhases (clearCache : bool) : list phase :=
  if clearCache
  then [PrepareAppVolume; DetectPhase; AnalyzePhase; BuildPhase; ExportPhase]
  else allPhases.

Definition skipNotice : event := Info "Skipping 'restore' due to clearing cache".



(** *** The phase sequence as a plan

    The sequence of [Execute] after the cache has been dealt with, written
    as data: a step message, a notice, or a phase call that stops the
    sequence when it fails. [ExecuteDeferred_run] below shows that this is
    what the code does. *)
Inductive step : Type :=
| Say (name : string)
| Note (msg : string)
| Run (c : phase_call).

Definition phasePlan (w : World) (ctx : context) (opts : LifecycleOptions.t)
    (l : Lifecycle.t) : list step :=
  let buildCache := NewVolumeCache (LifecycleOptions.Image opts) "build" in
  let launchCache := NewVolumeCache (LifecycleOptions.Image opts) "launch" in
  let phaseFactory := NewDefaultPhaseFactory l in
  [ Say "PREPARING"; Run (prepareAppVolume ctx);
    Say "DETECTING";
    Run (Detect ctx (LifecycleOptions.Network opts) (LifecycleOptions.Volumes opts)
           phaseFactory);
    Say "ANALYZING";
    Run (Analyze ctx (Reference.Name (LifecycleOptions.Image opts)) (cacheName w buildCache)
           (LifecycleOptions.Publish opts) (LifecycleOptions.ClearCache opts) phaseFactory);
    Say "RESTORING";
    if LifecycleOptions.ClearCache opts
    then Note "Skipping 'restore' due to clearing cache"
    else Run (Restore ctx (cacheName w buildCache) phaseFactory);
    Say "BUILDING";
    Run (Build ctx (LifecycleOptions.Network opts) (LifecycleOptions.Volumes opts)
           phaseFactory);
    Say "EXPORTING";
    Run (Export ctx (Reference.Name (LifecycleOptions.Image opts))
           (LifecycleOptions.RunImage opts) (LifecycleOptions.Publish opts)
           (cacheName w launchCache) (cacheName w buildCache) phaseFactory) ].

Fixpoint runPlan (w : World) (l : Lifecycle.t) (p : list step)
  : option error * list event :=
  match p with
  | [] => (None, [])
  | Say n :: p' => let '(r, t) := runPlan w l p' in (r, InfoStep n :: t)
  | Note m :: p' => let '(r, t) := runPlan w l p' in (r, Info m :: t)
  | Run c :: p' =>
      match runPhase w l c with
      | Some err => (Some err, [CallPhase c (Some err)])
      | None => let '(r, t) := runPlan w l p' in (r, CallPhase c None :: t)
      end
  end.

Definition plannedPhases (p : list step) : list phase :=
  flat_map (fun st => match st with Run c => [phase_of c] | _ => [] end) p.

Definition plannedSteps (p : list step) : list string :=
  flat_map (fun st => match st with Say n => [n] | _ => [] end) p.

(** The cache handling of [Execute] followed by the plan. *)
Definition deferredRun (w : World) (ctx : context) (opts : LifecycleOptions.t)
    (l : Lifecycle.t) : option error * list event :=
  let buildCache := NewVolumeCache (LifecycleOptions.Image opts) "build" in
  let announce := Debugf "Using build cache volume %s" (cacheName w buildCache) in
  let '(r, t) := runPlan w l (phasePlan w ctx opts l) in
  if LifecycleOptions.ClearCache opts
  then
    match cacheClear w buildCache ctx with
    | Some err =>
        (Some (Wrap err "clearing build cache"), [announce; CallClear buildCache ctx (Some err)])
    | None =>
        (r, announce :: CallClear buildCache ctx None
              :: Debugf "Build cache %s cleared" (cacheName w buildCache) :: t)
    end
  else (r, announce :: t).

(** The events a plan can leave: step messages, notices and phase calls. *)
Definition isPlanEvent (e : event) : bool :=
  match e with
  | InfoStep _ | Info _ | CallPhase _ _ => true
  | _ => false
  end.

(** ** Sample runs *)

Definition sampleBuilder (platformAPI : string) (os : string + error) : Builder.t :=
  {| Builder.Name := "sample/builder";
     Builder.UID := 1000;
     Builder.GID := 1000;
     Builder.LifecycleDescriptor :=
       {| LifecycleDescriptor.Info_Version := "0.7.1";
          LifecycleDescriptor.API_PlatformVersion := platformAPI |};
     Builder.Image := {| Image.OS := os |} |}.

Definition sampleOptions (clearCache : bool) (b : Builder.t) : LifecycleOptions.t :=
  {| LifecycleOptions.AppPath := "/src/app";
     LifecycleOptions.Image := {| Reference.Name := "registry.example/app" |};
     LifecycleOptions.Builder := b;
     LifecycleOptions.RunImage := "sample/run";
     LifecycleOptions.ClearCache := clearCache;
     LifecycleOptions.Publish := false;
     LifecycleOptions.HTTPProxy := "";
     LifecycleOptions.HTTPSProxy := "";
     LifecycleOptions.NoProxy := "";
     LifecycleOptions.Network := "";
     LifecycleOptions.Volumes := [];
     LifecycleOptions.DefaultProcessType := "web";
     LifecycleOptions.FileFilter := None |}.

(** A fresh orchestrator before anything was drawn. *)
Definition initialState : state := {| self := NewLifecycle; drawn := 0 |}.

(** A build context that was cancelled before [Execute] was called. *)
Definition cancelledContext : context := Caller 1 true.

Definition liveContext : context := Caller 1 false.

(** A world in which every collaborator succeeds. *)
Definition quietWorld : World :=
  {| randSource := fun i => 7 * i + 3;
     cacheName := fun c => ("pack-cache-0123456789ab." ++ suffix c)%string;
     cacheClear := fun _ _ => None;
     runPhase := fun _ _ => None;
     dockerVolumeRemove := fun _ _ _ => None |}.

(** The same world, but clearing a cache fails. *)
Definition clearFailsWorld : World :=
  {| randSource := randSource quietWorld;
     cacheName := cacheName quietWorld;
     cacheClear := fun _ _ => Some (ErrNew "volume is in use");
     runPhase := runPhase quietWorld;
     dockerVolumeRemove := dockerVolumeRemove quietWorld |}.

(** The same world, but the detect phase exits with code 1. *)
Definition detectFailsWorld : World :=
  {| randSource := randSource quietWorld;
     cacheName := cacheName quietWorld;
     cacheClear := cacheClear quietWorld;
     runPhase := fun _ c =>
       match c with
       | Detect _ _ _ _ => Some (ErrNew "failed with status code: 1")
       | _ => None
       end;
     dockerVolumeRemove := dockerVolumeRemove quietWorld |}.

(** The same world, but no volume can be removed; the error names the
    volume. *)
Definition busyVolumesWorld : World :=
  {| randSource := randSource quietWorld;
     cacheName := cacheName quietWorld;
     cacheClear := cacheClear quietWorld;
     runPhase := runPhase quietWorld;
     dockerVolumeRemove := fun _ name _ => Some (ErrNew ("volume is in use: " ++ name)) |}.

(** ** The claims that the code does not meet, as they are worded *)

(** [Cleanup] attempts both removals and, if either fails, returns an
    error that aggregates every removal error, each wrapped with the name
    of its volume; it returns no error if both succeed. *)
Definition Cleanup_aggregates (w : World) (s : state) : Prop :=
  let l := self s in
  let r1 := dockerVolumeRemove w Background (Lifecycle.LayersVolume l) true in
  let r2 := dockerVolumeRemove w Background (Lifecycle.AppVolume l) true in
  (exists c1 c2 x1 x2,
     filter isVolumeRemove (trace (Cleanup w s))
     = [CallVolumeRemove c1 (Lifecycle.LayersVolume l) true x1;
        CallVolumeRemove c2 (Lifecycle.AppVolume l) true x2]) /\
  (forall e1, r1 = Some e1 ->
     exists r, result (Cleanup w s) = Some r /\
       Within (Wrap e1 ("failed to clean up layers volume " ++ Lifecycle.LayersVolume l)%string) r) /\
  (forall e2, r2 = Some e2 ->
     exists r, result (Cleanup w s) = Some r /\
       Within (Wrap e2 ("failed to clean up app volume " ++ Lifecycle.AppVolume l)%string) r) /\
  (r1 = None -> r2 = None -> result (Cleanup w s) = None).

(** In a run in which [Setup] succeeded, a phase call or the cache clear
    that returns an error makes [Execute] return that very error, no phase
    is invoked afterwards and [Cleanup] is entered once; when [Setup] fails
    [Execute] returns its error, [Cleanup] is not entered and no phase is
    invoked. *)
Definition Execute_returns_the_error (w : World) (ctx : context)
    (opts : LifecycleOptions.t) (s : state) : Prop :=
  let run := Execute w ctx opts s in
  (result (Setup w opts s) = None ->
     (forall c e, In (CallPhase c (Some e)) (trace run) ->
        result run = Some e /\
        (exists pre post,
           trace run = pre ++ CallPhase c (Some e) :: post /\ phasesOf post = []) /\
        timesCleanupCalled (trace run) = 1) /\
     (forall bc ctx' e, In (CallClear bc ctx' (Some e)) (trace run) ->
        result run = Some e /\
        phasesOf (trace run) = [] /\
        timesCleanupCalled (trace run) = 1)) /\
  (forall err, result (Setup w opts s) = Some err ->
     result run = Some err /\
     timesCleanupCalled (trace run) = 0 /\
     phasesOf (trace run) = []).

(** A run reaches the phase sequence when it announces the first phase. *)
Definition reachesPhaseSequence (t : list event) : Prop := In (InfoStep "PREPARING") t.


(** The build cache is the cache volume [Execute] makes with ["build"], the
    launch cache the one it makes with ["launch"]. *)
Definition buildCacheOf (opts : LifecycleOptions.t) : VolumeCache :=
  NewVolumeCache (LifecycleOptions.Image opts) "build".

Definition launchCacheOf (opts : LifecycleOptions.t) : VolumeCache :=
  NewVolumeCache (LifecycleOptions.Image opts) "launch".


(** A builder whose platform API version is not supported is refused: the
    run returns an error and invokes no phase. *)
Definition Execute_refuses_unsupported_platform (w : World) (ctx : context)
    (opts : LifecycleOptions.t) (s : state) : Prop :=
  let run := Execute w ctx opts s in
  ~ In (LifecycleDescriptor.API_PlatformVersion
          (Builder.LifecycleDescriptor (LifecycleOptions.Builder opts)))
       SupportedPlatformAPIVersions ->
  result run <> None /\ phasesOf (trace run) = [].

(** ** More ways to read and vary a run *)

Definition isCacheClear (e : event) : bool :=
  match e with CallClear _ _ _ => true | _ => false end.

(** A world that differs from [w] in what [docker.VolumeRemove] answers
    only. *)
Definition withVolumeRemove (f : context -> string -> bool -> option error) (w : World)
  : World :=
  {| randSource := randSource w;
     cacheName := cacheName w;
     cacheClear := cacheClear w;
     runPhase := runPhase w;
     dockerVolumeRemove := f |}.

(** The five paths a phase container mounts. *)
Definition mountedPaths (m : MountPaths.t) : list string :=
  [layersDir m; appDir m; cacheDir m; launchCacheDir m; platformDir m].

(** * Properties *)

(** ** Mount paths *)

Lemma mountPathsForOS_windows : mountPathsForOS "windows" = {| MountPaths.prefix := "c:\" |}.
Proof. reflexivity. Qed.

Lemma mountPathsForOS_other (os : string) :
  os <> "windows"%string -> mountPathsForOS os = {| MountPaths.prefix := "/" |}.
Proof.
  intros Hne. unfold mountPathsForOS.
  destruct (String.eqb_spec os "windows") as [Heq | _]; [contradiction | reflexivity].
Qed.

(** C6. Mount-path resolution is a total function of the OS identifier with
    no error result; its prefix is the Windows drive root exactly when the
    identifier is ["windows"] and the POSIX root for every other identifier,
    and the five paths are that prefix followed by [layers], [workspace],
    [cache], [launch-cache] and [platform] whatever the identifier. *)
Theorem C6_mount_paths_by_os (os : string) :
  let m := mountPathsForOS os in
  (MountPaths.prefix m = "c:\"%string <-> os = "windows"%string) /\
  (MountPaths.prefix m = "/"%string <-> os <> "windows"%string) /\
  layersDir m = (MountPaths.prefix m ++ "layers")%string /\
  appDir m = (MountPaths.prefix m ++ "workspace")%string /\
  cacheDir m = (MountPaths.prefix m ++ "cache")%string /\
  launchCacheDir m = (MountPaths.prefix m ++ "launch-cache")%string /\
  platformDir m = (MountPaths.prefix m ++ "platform")%string.
Proof.
  cbv zeta. repeat split; try reflexivity.
  - intros Hp. destruct (string_dec os "windows") as [Heq | Hne]; [exact Heq |].
    rewrite (mountPathsForOS_other os Hne) in Hp. discriminate Hp.
  - intros ->. reflexivity.
  - intros Hp Heq. subst os. discriminate Hp.
  - intros Hne. rewrite (mountPathsForOS_other os Hne). reflexivity.
Qed.

(** C10. The comparison with ["windows"] is exact: an identifier that is
    ["windows"] up to the case of its letters, but not ["windows"] itself,
    gets the POSIX prefix. *)
Theorem C10_os_comparison_is_case_sensitive (os : string) :
  toLower os = "windows"%string ->
  os <> "windows"%string ->
  MountPaths.prefix (mountPathsForOS os) = "/"%string /\
  MountPaths.prefix (mountPathsForOS os) <> "c:\"%string.
Proof.
  intros _ Hne. rewrite (mountPathsForOS_other os Hne). split; [reflexivity | discriminate].
Qed.

Lemma C10_witness_Windows :
  toLower "Windows" = "windows"%string /\
  MountPaths.prefix (mountPathsForOS "Windows") = "/"%string /\
  MountPaths.prefix (mountPathsForOS "Windows") <> "c:\"%string.
Proof.
  split; [reflexivity |].
  apply (C10_os_comparison_is_case_sensitive "Windows"); [reflexivity | discriminate].
Defined.

Example mountPathsForOS_WINDOWS :
  toLower "WINDOWS" = "windows"%string /\ appDir (mountPathsForOS "WINDOWS") = "/workspace"%string.
Proof. split; reflexivity. Qed.

Example mountPathsForOS_windows_paths :
  let m := mountPathsForOS "windows" in
  (layersDir m, appDir m, cacheDir m, launchCacheDir m, platformDir m)
  = ("c:\layers", "c:\workspace", "c:\cache", "c:\launch-cache", "c:\platform")%string.
Proof. reflexivity. Qed.

(** ** Random volume names *)

Lemma randBytes_run (w : World) (n : nat) (s : state) :
  randBytes w n s = (letters w (drawn s) n, {| self := self s; drawn := n + drawn s |}, []).
Proof.
  revert s. induction n as [|n IH]; intros s.
  - destruct s; reflexivity.
  - cbn [randBytes]. unfold bind. unfold Intn at 1. rewrite IH. cbn [self drawn].
    unfold ret, letters. cbn [seq map app].
    replace (n + S (drawn s)) with (S n + drawn s) by lia. reflexivity.
Qed.

Lemma randString_run (w : World) (n : nat) (s : state) :
  randString w n s =
  (string_of_list_ascii (letters w (drawn s) n),
   {| self := self s; drawn := n + drawn s |}, []).
Proof. unfold randString, bind. rewrite randBytes_run. reflexivity. Qed.

Lemma letters_length (w : World) (from n : nat) : length (letters w from n) = n.
Proof. unfold letters. rewrite length_map. apply length_seq. Qed.

Lemma letters_split (w : World) (from n m : nat) :
  letters w from (n + m) = letters w from n ++ letters w (from + n) m.
Proof. unfold letters. rewrite seq_app, map_app. reflexivity. Qed.

Lemma letterOf_code (d : nat) : d < 26 -> nat_of_ascii (letterOf d) = 97 + d.
Proof.
  intros Hd. unfold letterOf. rewrite nat_ascii_embedding; [reflexivity |].
  change (nat_of_ascii "a") with 97. lia.
Qed.

Lemma lowercase_codes : map nat_of_ascii lowercase = seq 97 26.
Proof. reflexivity. Qed.

Lemma lowercase_NoDup : NoDup lowercase.
Proof. apply (NoDup_map_inv nat_of_ascii). rewrite lowercase_codes. apply seq_NoDup. Qed.

Lemma lowercase_isLowercase (c : ascii) : In c lowercase -> isLowercase c.
Proof.
  intros Hin. apply (in_map nat_of_ascii) in Hin. rewrite lowercase_codes in Hin.
  apply in_seq in Hin. unfold isLowercase.
  change (nat_of_ascii "a") with 97. change (nat_of_ascii "z") with 122. lia.
Qed.

Lemma letter_lowercase (w : World) (i : nat) : In (letter w i) lowercase.
Proof.
  unfold letter, lowercase. apply (in_map letterOf). apply in_seq.
  pose proof (Nat.mod_upper_bound (randSource w i) 26). lia.
Qed.

Lemma suffixes_length (n : nat) : length (suffixes n) = 26 ^ n.
Proof.
  induction n as [|n IH]; [reflexivity |].
  cbn [suffixes]. rewrite length_flat_map.
  rewrite (map_ext _ (fun _ => 26 ^ n)) by (intros c; rewrite length_map; exact IH).
  change (26 ^ S n) with (26 * 26 ^ n).
  generalize (26 ^ n); intros k. unfold lowercase. rewrite map_map.
  generalize (seq 0 26) (length_seq 26 0); intros l Hl.
  rewrite <- Hl. clear Hl. induction l as [|x l IHl]; [reflexivity |].
  change (k + list_sum (map (fun _ : nat => k) l) = k + length l * k). now rewrite IHl.
Qed.

Lemma suffixes_in (n : nat) (s : string) :
  In s (suffixes n) <->
  String.length s = n /\ Forall (fun c => In c lowercase) (list_ascii_of_string s).
Proof.
  revert s. induction n as [|n IH]; intros s; cbn [suffixes].
  - split.
    + intros [<- | []]. split; [reflexivity | constructor].
    + intros [Hlen _]. destruct s; [left; reflexivity | discriminate Hlen].
  - rewrite in_flat_map. split.
    + intros (c & Hc & Hin). apply in_map_iff in Hin. destruct Hin as (r & <- & Hr).
      apply IH in Hr. destruct Hr as [Hlen Hall]. cbn. split; [now f_equal | now constructor].
    + intros [Hlen Hall]. destruct s as [|c r]; [discriminate Hlen |].
      cbn in Hlen, Hall. inversion Hall as [|? ? Hc Hr]; subst.
      exists c. split; [exact Hc |]. apply in_map. apply IH. split; [now injection Hlen | exact Hr].
Qed.

Lemma NoDup_flat_map_disjoint {A B : Type} (f : A -> list B) (l : list A) :
  NoDup l ->
  (forall x, In x l -> NoDup (f x)) ->
  (forall x y z, In x l -> In y l -> In z (f x) -> In z (f y) -> x = y) ->
  NoDup (flat_map f l).
Proof.
  induction 1 as [|x l Hx Hl IH]; intros Hf Hdisj; cbn [flat_map]; [constructor |].
  apply NoDup_app.
  - apply Hf. now left.
  - apply IH; [intros y Hy; apply Hf; now right |].
    intros a b z Ha Hb. apply Hdisj; now right.
  - intros z Hz Hz'. apply in_flat_map in Hz'. destruct Hz' as (y & Hy & Hzy).
    assert (x = y) as -> by (apply (Hdisj x y z); [now left | now right | assumption ..]).
    contradiction.
Qed.

Lemma NoDup_map_String (c : ascii) (l : list string) :
  NoDup l -> NoDup (map (String c) l).
Proof.
  induction 1 as [|s l Hs Hl IH]; cbn [map]; constructor; [| exact IH].
  intros Hin. apply in_map_iff in Hin. destruct Hin as (r & Heq & Hr).
  injection Heq as ->. contradiction.
Qed.

Lemma suffixes_NoDup (n : nat) : NoDup (suffixes n).
Proof.
  induction n as [|n IH]; cbn [suffixes].
  - repeat constructor. intros [].
  - apply NoDup_flat_map_disjoint.
    + exact lowercase_NoDup.
    + intros c _. apply NoDup_map_String. exact IH.
    + intros x y z _ _ Hx Hy. apply in_map_iff in Hx, Hy.
      destruct Hx as (a & <- & _). destruct Hy as (b & Hb & _). now injection Hb.
Qed.

Lemma letters_in_suffixes (w : World) (from n : nat) :
  In (string_of_list_ascii (letters w from n)) (suffixes n).
Proof.
  apply suffixes_in. split.
  - rewrite <- (letters_length w from n) at 2.
    generalize (letters w from n). induction l as [|c l IHl]; cbn; [reflexivity | now f_equal].
  - rewrite list_ascii_of_string_of_list_ascii. unfold letters.
    apply Forall_forall. intros c Hc. apply in_map_iff in Hc.
    destruct Hc as (i & <- & _). apply letter_lowercase.
Qed.

Lemma lowercase_digit (c : ascii) : In c lowercase -> exists d, d < 26 /\ c = letterOf d.
Proof.
  unfold lowercase. intros Hin. apply in_map_iff in Hin. destruct Hin as (d & <- & Hd).
  apply in_seq in Hd. exists d. split; [lia | reflexivity].
Qed.

Lemma suffixes_digits (n : nat) (s : string) :
  In s (suffixes n) ->
  exists ds, length ds = n /\ Forall (fun d => d < 26) ds /\
             s = string_of_list_ascii (map letterOf ds).
Proof.
  intros Hin. apply suffixes_in in Hin. destruct Hin as [Hlen Hall].
  revert n Hlen. induction s as [|c r IH]; intros n Hlen.
  - exists []. cbn in Hlen. subst n. repeat split. constructor.
  - cbn in Hlen, Hall. inversion Hall as [|? ? Hc Hr]; subst.
    destruct (IH Hr _ eq_refl) as (ds & Hds & Hlt & ->).
    destruct (lowercase_digit c Hc) as (d & Hd & ->).
    exists (d :: ds). cbn. repeat split; [now rewrite Hds | now constructor].
Qed.

Lemma letters_of_digits (w : World) (ds : list nat) (from : nat) :
  Forall (fun d => d < 26) ds ->
  (forall i, i < length ds -> randSource w (from + i) = nth i ds 0) ->
  letters w from (length ds) = map letterOf ds.
Proof.
  revert from. induction ds as [|d ds IH]; intros from Hlt Hsrc; [reflexivity |].
  inversion Hlt as [|? ? Hd Hds]; subst.
  unfold letters in *. cbn [length seq map]. f_equal.
  - unfold letter, letterOf. specialize (Hsrc 0). cbn in Hsrc.
    rewrite Nat.add_0_r in Hsrc. rewrite Hsrc by lia. now rewrite Nat.mod_small.
  - apply IH; [exact Hds |]. intros i Hi. specialize (Hsrc (S i)). cbn in Hsrc.
    rewrite <- Hsrc by lia. f_equal. lia.
Qed.

(** What [Setup] does: it draws twenty values, names the two volumes,
    copies the options, asks the builder's image for its OS and returns the
    error of that query, if any. *)
Lemma Setup_spec (w : World) (opts : LifecycleOptions.t) (s : state) :
  let os := Image.OS (Builder.Image (LifecycleOptions.Builder opts)) in
  exists l1,
    Setup w opts s =
      (match os with inl _ => None | inr err => Some err end,
       {| self := l1; drawn := 10 + (10 + drawn s) |}, [CallOS os]) /\
    Lifecycle.LayersVolume l1
      = ("pack-layers-" ++ string_of_list_ascii (letters w (drawn s) 10))%string /\
    Lifecycle.AppVolume l1
      = ("pack-app-" ++ string_of_list_ascii (letters w (10 + drawn s) 10))%string /\
    Lifecycle.platformAPIVersion l1
      = LifecycleDescriptor.API_PlatformVersion
          (Builder.LifecycleDescriptor (LifecycleOptions.Builder opts)) /\
    Lifecycle.builder l1 = Some (LifecycleOptions.Builder opts).
Proof.
  cbv zeta. unfold Setup, bind. rewrite randString_run.
  cbn -[randString letters String.append Nat.add].
  rewrite randString_run.
  cbn -[randString letters String.append Nat.add].
  destruct (Image.OS (Builder.Image (LifecycleOptions.Builder opts))) as [os | err];
    cbn -[randString letters String.append Nat.add];
    eexists; (split; [reflexivity |]); cbn -[letters String.append Nat.add]; auto.
Qed.

Lemma Setup_result (w : World) (opts : LifecycleOptions.t) (s : state) :
  result (Setup w opts s)
  = match Image.OS (Builder.Image (LifecycleOptions.Builder opts)) with
    | inl _ => None
    | inr err => Some err
    end.
Proof. destruct (Setup_spec w opts s) as (l1 & Hrun & _). now rewrite Hrun. Qed.

(** [Setup] succeeds exactly when the OS query does, and fails with the
    error of that query. *)
Lemma Setup_succeeded (w : World) (opts : LifecycleOptions.t) (s : state) :
  result (Setup w opts s) = None ->
  exists os, Image.OS (Builder.Image (LifecycleOptions.Builder opts)) = inl os.
Proof.
  rewrite Setup_result.
  destruct (Image.OS (Builder.Image (LifecycleOptions.Builder opts))) as [os | err];
    [intros _; now exists os | discriminate].
Qed.

Lemma Setup_failed (w : World) (opts : LifecycleOptions.t) (s : state) (err : error) :
  result (Setup w opts s) = Some err ->
  Image.OS (Builder.Image (LifecycleOptions.Builder opts)) = inr err.
Proof.
  rewrite Setup_result.
  destruct (Image.OS (Builder.Image (LifecycleOptions.Builder opts))) as [os | err'];
    [discriminate | intros Heq; now injection Heq as ->].
Qed.

(** C7. Every [Setup] call names one layers volume and one app volume:
    ["pack-layers-"] and ["pack-app-"], each followed by its own ten
    lowercase letters, one per draw of the random source. The suffixes
    range over all the [26 ^ 10] strings of ten lowercase letters, every
    pair of which some random source produces. *)
Theorem C7_setup_names_volumes (w : World) (opts : LifecycleOptions.t) (s : state) :
  let l := self (final (Setup w opts s)) in
  (exists suf1 suf2,
     Lifecycle.LayersVolume l = ("pack-layers-" ++ suf1)%string /\
     Lifecycle.AppVolume l = ("pack-app-" ++ suf2)%string /\
     suf1 = string_of_list_ascii (letters w (drawn s) 10) /\
     suf2 = string_of_list_ascii (letters w (10 + drawn s) 10) /\
     String.length suf1 = 10 /\ String.length suf2 = 10 /\
     Forall isLowercase (list_ascii_of_string suf1) /\
     Forall isLowercase (list_ascii_of_string suf2) /\
     In suf1 (suffixes 10) /\ In suf2 (suffixes 10)) /\
  drawn (final (Setup w opts s)) = 20 + drawn s /\
  NoDup (suffixes 10) /\
  length (suffixes 10) = 26 ^ 10 /\
  (forall a b, In a (suffixes 10) -> In b (suffixes 10) ->
     exists w',
       let l' := self (final (Setup w' opts s)) in
       Lifecycle.LayersVolume l' = ("pack-layers-" ++ a)%string /\
       Lifecycle.AppVolume l' = ("pack-app-" ++ b)%string).
Proof.
  cbv zeta. split; [| split; [| split; [| split]]].
  - destruct (Setup_spec w opts s) as (l1 & Hrun & Hlayers & Happ & _).
    rewrite Hrun. unfold final. cbn [fst snd self].
    exists (string_of_list_ascii (letters w (drawn s) 10)),
           (string_of_list_ascii (letters w (10 + drawn s) 10)).
    pose proof (letters_in_suffixes w (drawn s) 10) as H1.
    pose proof (letters_in_suffixes w (10 + drawn s) 10) as H2.
    pose proof (proj1 (suffixes_in _ _) H1) as [Hlen1 Hall1].
    pose proof (proj1 (suffixes_in _ _) H2) as [Hlen2 Hall2].
    repeat (split; [first [assumption | reflexivity] |]).
    split; [| split; [| split]]; try assumption.
    + eapply Forall_impl; [| exact Hall1]. exact lowercase_isLowercase.
    + eapply Forall_impl; [| exact Hall2]. exact lowercase_isLowercase.
  - destruct (Setup_spec w opts s) as (l1 & Hrun & _). rewrite Hrun. reflexivity.
  - apply suffixes_NoDup.
  - apply suffixes_length.
  - intros a b Ha Hb.
    destruct (suffixes_digits _ _ Ha) as (da & Hla & Hda & ->).
    destruct (suffixes_digits _ _ Hb) as (db & Hlb & Hdb & ->).
    set (w' := withRandSource (sourceOf (drawn s) (da ++ db)) w).
    exists w'. destruct (Setup_spec w' opts s) as (l1 & Hrun & Hlayers & Happ & _).
    rewrite Hrun. unfold final. cbn [fst snd self]. rewrite Hlayers, Happ.
    split; do 2 f_equal.
    + rewrite <- Hla. apply letters_of_digits; [exact Hda |].
      intros i Hi. cbn [w' withRandSource randSource]. unfold sourceOf.
      replace (drawn s + i - drawn s) with i by lia. now apply app_nth1.
    + rewrite <- Hlb. apply letters_of_digits; [exact Hdb |].
      intros i Hi. cbn [w' withRandSource randSource]. unfold sourceOf.
      replace (10 + drawn s + i - drawn s) with (length da + i) by lia.
      rewrite app_nth2 by lia. f_equal. lia.
Qed.

(** ** Runs of [Cleanup] and [Execute] *)

Lemma Cleanup_run (w : World) (s : state) :
  let l := self s in
  let r1 := dockerVolumeRemove w Background (Lifecycle.LayersVolume l) true in
  let r2 := dockerVolumeRemove w Background (Lifecycle.AppVolume l) true in
  Cleanup w s =
  (match r2 with
   | Some e2 => Some (Wrap e2 ("failed to clean up app volume " ++ Lifecycle.AppVolume l)%string)
   | None =>
       match r1 with
       | Some e1 =>
           Some (Wrap e1 ("failed to clean up layers volume " ++ Lifecycle.LayersVolume l)%string)
       | None => None
       end
   end,
   s,
   [CleanupCalled;
    CallVolumeRemove Background (Lifecycle.LayersVolume l) true r1;
    CallVolumeRemove Background (Lifecycle.AppVolume l) true r2]).
Proof.
  cbv zeta. unfold Cleanup, bind, dockerCall_VolumeRemove, emit, getSelf, ret.
  cbn -[String.append].
  destruct (dockerVolumeRemove w Background (Lifecycle.LayersVolume (self s)) true);
    destruct (dockerVolumeRemove w Background (Lifecycle.AppVolume (self s)) true);
    reflexivity.
Qed.

(** The deferred part of [Execute] does what [deferredRun] says and leaves
    the state as it found it. *)
Lemma ExecuteDeferred_run (w : World) (ctx : context) (opts : LifecycleOptions.t) (s : state) :
  ExecuteDeferred w ctx opts s =
  (fst (deferredRun w ctx opts (self s)), s, snd (deferredRun w ctx opts (self s))).
Proof.
  unfold ExecuteDeferred, deferredRun, phasePlan.
  unfold bind, emit, ret, getSelf, callPhase, Clear. cbn.
  destruct (LifecycleOptions.ClearCache opts); [destruct (cacheClear _ _ _) |]; cbn;
    repeat match goal with
      | |- context [runPhase ?w' ?l ?c] => destruct (runPhase w' l c); cbn
      end;
    reflexivity.
Qed.

Lemma Execute_run (w : World) (ctx : context) (opts : LifecycleOptions.t) (s : state) :
  let s1 := final (Setup w opts s) in
  Execute w ctx opts s =
  match Image.OS (Builder.Image (LifecycleOptions.Builder opts)) with
  | inr err => (Some err, s1, [CallOS (inr err)])
  | inl os =>
      (fst (deferredRun w ctx opts (self s1)), s1,
       CallOS (inl os) :: snd (deferredRun w ctx opts (self s1)) ++ trace (Cleanup w s1))
  end.
Proof.
  cbv zeta. destruct (Setup_spec w opts s) as (l1 & Hrun & _).
  unfold Execute, defer. unfold bind at 1. rewrite Hrun. unfold final. cbn [fst snd].
  destruct (Image.OS (Builder.Image (LifecycleOptions.Builder opts))) as [os | err].
  - unfold bind. rewrite ExecuteDeferred_run.
    pose proof (Cleanup_run w {| self := l1; drawn := 10 + (10 + drawn s) |}) as Hc.
    cbv zeta in Hc. rewrite Hc. unfold trace, ret. cbn [fst snd self app].
    reflexivity.
  - reflexivity.
Qed.

(** ** Runs of a plan *)

Lemma phasesOf_app (t u : list event) : phasesOf (t ++ u) = phasesOf t ++ phasesOf u.
Proof. unfold phasesOf. apply flat_map_app. Qed.

Lemma stepsOf_app (t u : list event) : stepsOf (t ++ u) = stepsOf t ++ stepsOf u.
Proof. unfold stepsOf. apply flat_map_app. Qed.

Lemma timesCleanupCalled_app (t u : list event) :
  timesCleanupCalled (t ++ u) = timesCleanupCalled t + timesCleanupCalled u.
Proof. unfold timesCleanupCalled. rewrite filter_app. apply length_app. Qed.

Lemma phasesOf_in (t : list event) (p : phase) :
  In p (phasesOf t) <-> exists c r, In (CallPhase c r) t /\ phase_of c = p.
Proof.
  unfold phasesOf. rewrite in_flat_map. split.
  - intros (e & He & Hp). destruct e; cbn in Hp; try contradiction.
    destruct Hp as [<- | []]. eauto.
  - intros (c & r & Hin & <-). exists (CallPhase c r). split; [exact Hin | now left].
Qed.

Lemma phasesOf_nil (t : list event) :
  phasesOf t = [] <-> forall c r, ~ In (CallPhase c r) t.
Proof.
  split.
  - intros Hnil c r Hin.
    assert (In (phase_of c) (phasesOf t)) as H by (apply phasesOf_in; eauto).
    rewrite Hnil in H. exact H.
  - intros Hno. destruct (phasesOf t) as [|p ps] eqn:E; [reflexivity |].
    assert (In p (phasesOf t)) as H by (rewrite E; now left).
    apply phasesOf_in in H. destruct H as (c & r & Hin & _). now apply Hno in Hin.
Qed.

(** A plan leaves plan events only. *)
Lemma runPlan_events (w : World) (l : Lifecycle.t) (p : list step) :
  Forall (fun e => isPlanEvent e = true) (snd (runPlan w l p)).
Proof.
  induction p as [|st p IH]; cbn [runPlan]; [constructor |].
  destruct st as [n | m | c]; destruct (runPlan w l p) as [r t]; cbn [snd] in *.
  - now constructor.
  - now constructor.
  - destruct (runPhase w l c); cbn [snd]; repeat constructor. exact IH.
Qed.

Lemma planEvents_no_cleanup (t : list event) :
  Forall (fun e => isPlanEvent e = true) t -> timesCleanupCalled t = 0.
Proof.
  unfold timesCleanupCalled.
  induction 1 as [|e t He Ht IH]; [reflexivity |].
  destruct e; cbn in *; try discriminate; exact IH.
Qed.

(** A failing phase call ends the plan: it is the last event and its error
    is the result. *)
Lemma runPlan_failed_call (w : World) (l : Lifecycle.t) (p : list step)
    (c : phase_call) (e : error) :
  In (CallPhase c (Some e)) (snd (runPlan w l p)) ->
  fst (runPlan w l p) = Some e /\
  exists pre, snd (runPlan w l p) = pre ++ [CallPhase c (Some e)].
Proof.
  induction p as [|st p IH]; cbn [runPlan]; [intros [] |].
  destruct st as [n | m | c0].
  - destruct (runPlan w l p) as [r t]; cbn [fst snd] in *.
    intros [Heq | Hin]; [discriminate Heq |].
    destruct (IH Hin) as (Hr & pre & ->). split; [exact Hr |].
    exists (InfoStep n :: pre). reflexivity.
  - destruct (runPlan w l p) as [r t]; cbn [fst snd] in *.
    intros [Heq | Hin]; [discriminate Heq |].
    destruct (IH Hin) as (Hr & pre & ->). split; [exact Hr |].
    exists (Info m :: pre). reflexivity.
  - destruct (runPhase w l c0) as [err |].
    + cbn [fst snd]. intros [Heq | []]. injection Heq as -> ->.
      split; [reflexivity |]. exists []. reflexivity.
    + destruct (runPlan w l p) as [r t]; cbn [fst snd] in *.
      intros [Heq | Hin]; [discriminate Heq |].
      destruct (IH Hin) as (Hr & pre & ->). split; [exact Hr |].
      exists (CallPhase c0 None :: pre). reflexivity.
Qed.

(** An error of a plan is the error of a phase call of its trace. *)
Lemma runPlan_error_origin (w : World) (l : Lifecycle.t) (p : list step) (e : error) :
  fst (runPlan w l p) = Some e ->
  exists c, In (Run c) p /\ In (CallPhase c (Some e)) (snd (runPlan w l p)).
Proof.
  induction p as [|st p IH]; cbn [runPlan]; [discriminate |].
  destruct st as [n | m | c0].
  - destruct (runPlan w l p) as [r t]; cbn [fst snd] in *. intros Hr.
    destruct (IH Hr) as (c & Hc & Hin). exists c. split; now right.
  - destruct (runPlan w l p) as [r t]; cbn [fst snd] in *. intros Hr.
    destruct (IH Hr) as (c & Hc & Hin). exists c. split; now right.
  - destruct (runPhase w l c0) as [err |].
    + cbn [fst snd]. intros Heq. injection Heq as ->. exists c0. split; now left.
    + destruct (runPlan w l p) as [r t]; cbn [fst snd] in *. intros Hr.
      destruct (IH Hr) as (c & Hc & Hin). exists c. split; now right.
Qed.

(** A plan whose phase calls all succeed runs to its end. *)
Lemma runPlan_all_succeed (w : World) (l : Lifecycle.t) (p : list step) :
  (forall c, In (Run c) p -> runPhase w l c = None) ->
  fst (runPlan w l p) = None /\
  phasesOf (snd (runPlan w l p)) = plannedPhases p /\
  stepsOf (snd (runPlan w l p)) = plannedSteps p.
Proof.
  induction p as [|st p IH]; cbn [runPlan]; intros Hok; [repeat split |].
  destruct IH as (Hr & Hp & Hs); [intros c Hc; apply Hok; now right |].
  destruct st as [n | m | c0].
  - destruct (runPlan w l p) as [r t]; cbn [fst snd] in *.
    repeat split; [exact Hr | exact Hp | cbn; now f_equal].
  - destruct (runPlan w l p) as [r t]; cbn [fst snd] in *.
    repeat split; assumption.
  - rewrite (Hok c0) by now left.
    destruct (runPlan w l p) as [r t]; cbn [fst snd] in *.
    repeat split; [exact Hr | cbn; now f_equal | exact Hs].
Qed.

(** The phases a plan invokes and the steps it announces are the first of
    those planned, in the planned order. *)
Lemma runPlan_prefix (w : World) (l : Lifecycle.t) (p : list step) :
  (exists rest, phasesOf (snd (runPlan w l p)) ++ rest = plannedPhases p) /\
  (exists rest, stepsOf (snd (runPlan w l p)) ++ rest = plannedSteps p).
Proof.
  induction p as [|st p [(rp & Hp) (rs & Hs)]]; cbn [runPlan].
  - split; exists []; reflexivity.
  - destruct st as [n | m | c0].
    + destruct (runPlan w l p) as [r t]; cbn [fst snd] in *. split.
      * exists rp. exact Hp.
      * exists rs. cbn. now f_equal.
    + destruct (runPlan w l p) as [r t]; cbn [fst snd] in *. split.
      * exists rp. exact Hp.
      * exists rs. exact Hs.
    + destruct (runPhase w l c0) as [err |].
      * cbn [snd]. split.
        -- exists (plannedPhases p). reflexivity.
        -- exists (plannedSteps p). reflexivity.
      * destruct (runPlan w l p) as [r t]; cbn [fst snd] in *. split.
        -- exists rp. cbn. now f_equal.
        -- exists rs. exact Hs.
Qed.


Lemma planEvents_no_volumeRemove (t : list event) :
  Forall (fun e => isPlanEvent e = true) t -> filter isVolumeRemove t = [].
Proof.
  induction 1 as [|e t He Ht IH]; [reflexivity |].
  destruct e; cbn in *; try discriminate; exact IH.
Qed.

Lemma planEvents_in (t : list event) (e : event) :
  Forall (fun e => isPlanEvent e = true) t -> In e t -> isPlanEvent e = true.
Proof. intros Hall Hin. rewrite Forall_forall in Hall. now apply Hall. Qed.

(** The three ways the deferred part of [Execute] can go: the cache is
    cleared and clearing fails; the cache is cleared and the plan runs; the
    cache is left alone and the plan runs. *)
Ltac deferred_cases w ctx opts l r tp Hplan Hclear Hres :=
  unfold deferredRun;
  destruct (runPlan w l (phasePlan w ctx opts l)) as [r tp] eqn:Hplan;
  destruct (LifecycleOptions.ClearCache opts) eqn:Hclear;
  [ destruct (cacheClear w (NewVolumeCache (LifecycleOptions.Image opts) "build") ctx)
      eqn:Hres | ];
  cbn [fst snd].

(** ** Cleanup *)

(** C3, as the code has it. Every [Cleanup] call attempts the removal of
    the layers volume and then of the app volume, whatever the first
    removal returned. It returns the error of the app volume's removal
    wrapped with that volume's name if that removal fails (the error of the
    layers volume's removal, if any, is then dropped); otherwise the error
    of the layers volume's removal wrapped with that volume's name if that
    removal fails; and no error if both succeed. *)
Theorem C3_cleanup_returns_last_error (w : World) (s : state) :
  let l := self s in
  let r1 := dockerVolumeRemove w Background (Lifecycle.LayersVolume l) true in
  let r2 := dockerVolumeRemove w Background (Lifecycle.AppVolume l) true in
  trace (Cleanup w s)
  = [CleanupCalled;
     CallVolumeRemove Background (Lifecycle.LayersVolume l) true r1;
     CallVolumeRemove Background (Lifecycle.AppVolume l) true r2] /\
  result (Cleanup w s)
  = match r2 with
    | Some e2 =>
        Some (Wrap e2 ("failed to clean up app volume " ++ Lifecycle.AppVolume l)%string)
    | None =>
        match r1 with
        | Some e1 =>
            Some (Wrap e1 ("failed to clean up layers volume " ++ Lifecycle.LayersVolume l)%string)
        | None => None
        end
    end /\
  final (Cleanup w s) = s.
Proof.
  cbv zeta. pose proof (Cleanup_run w s) as Hrun. cbv zeta in Hrun.
  rewrite Hrun. repeat split.
Qed.

(** C3, as worded, fails when both removals fail right after [Setup]: the
    error returned is the app volume's alone and the layers volume's error
    is nowhere in it. *)
Lemma C3_counterexample_both_removals_fail :
  ~ Cleanup_aggregates busyVolumesWorld
      (final (Setup busyVolumesWorld (sampleOptions false (sampleBuilder "0.3" (inl "linux")))
                initialState)).
Proof.
  unfold Cleanup_aggregates. cbv zeta. intros (_ & Hlayers & _).
  specialize (Hlayers _ eq_refl). destruct Hlayers as (r & Hr & Hin).
  vm_compute in Hr. injection Hr as <-.
  vm_compute in Hin. destruct Hin as [Heq | [Heq | []]]; discriminate Heq.
Qed.

Example Cleanup_both_removals_fail :
  let s := final (Setup busyVolumesWorld (sampleOptions false (sampleBuilder "0.3" (inl "linux")))
                    initialState) in
  option_map Error (result (Cleanup busyVolumesWorld s))
  = Some "failed to clean up app volume pack-app-vcjqxelszg: volume is in use: pack-app-vcjqxelszg"%string.
Proof. vm_compute. reflexivity. Qed.

(** C9. [Cleanup] takes no context: it issues both removals with
    [context.Background()]. So whatever context [Execute] was called with,
    cancelled or not, no removal of the run carries it, and whenever [Setup]
    succeeded the run ends with the two removals of [Cleanup], of the
    volumes [Setup] named. *)
Theorem C9_cleanup_uses_background_context (w : World) (ctx : context)
    (opts : LifecycleOptions.t) (s : state) :
  (forall s',
     filter isVolumeRemove (trace (Cleanup w s'))
     = [CallVolumeRemove Background (Lifecycle.LayersVolume (self s')) true
          (dockerVolumeRemove w Background (Lifecycle.LayersVolume (self s')) true);
        CallVolumeRemove Background (Lifecycle.AppVolume (self s')) true
          (dockerVolumeRemove w Background (Lifecycle.AppVolume (self s')) true)]) /\
  (forall c n f r,
     In (CallVolumeRemove c n f r) (trace (Execute w ctx opts s)) -> c = Background) /\
  (result (Setup w opts s) = None ->
     exists pre,
       trace (Execute w ctx opts s) = pre ++ trace (Cleanup w (final (Setup w opts s))) /\
       filter isVolumeRemove pre = []).
Proof.
  split; [| split].
  - intros s'. pose proof (Cleanup_run w s') as Hrun. cbv zeta in Hrun.
    rewrite Hrun. reflexivity.
  - intros c n f r. pose proof (Execute_run w ctx opts s) as Hrun. cbv zeta in Hrun.
    rewrite Hrun. clear Hrun.
    destruct (Image.OS (Builder.Image (LifecycleOptions.Builder opts))) as [os | err];
      unfold trace; cbn [snd].
    + pose proof (Cleanup_run w (final (Setup w opts s))) as Hc. cbv zeta in Hc.
      rewrite Hc. cbn [snd]. clear Hc.
      unfold final. set (l := self (snd (fst (Setup w opts s)))) in *.
      pose proof (runPlan_events w l (phasePlan w ctx opts l)) as Hev. clearbody l.
      deferred_cases w ctx opts l r0 tp Hplan Hclear Hres;
        cbn [In app]; rewrite ?in_app_iff; cbn [In];
        intros Hin;
        repeat match type of Hin with
          | _ \/ _ => destruct Hin as [Hin | Hin]
          end;
        try discriminate Hin; try contradiction;
        try (injection Hin as <-; reflexivity);
        apply (planEvents_in _ _ Hev) in Hin; discriminate Hin.
    + intros [Heq | []]. discriminate Heq.
  - intros Hok. destruct (Setup_succeeded w opts s Hok) as (os & Hos).
    pose proof (Execute_run w ctx opts s) as Hrun. cbv zeta in Hrun.
    rewrite Hrun, Hos. clear Hrun. unfold trace at 1. cbn [snd].
    exists (CallOS (inl os) :: snd (deferredRun w ctx opts (self (final (Setup w opts s))))).
    split; [reflexivity |].
    set (l := self (final (Setup w opts s))) in *.
    pose proof (planEvents_no_volumeRemove _ (runPlan_events w l (phasePlan w ctx opts l))) as Hev.
    clearbody l.
    deferred_cases w ctx opts l r0 tp Hplan Hclear Hres; cbn; try exact Hev; reflexivity.
Qed.

Example Cleanup_after_cancelled_build :
  filter isVolumeRemove
    (trace (Execute detectFailsWorld cancelledContext
              (sampleOptions false (sampleBuilder "0.3" (inl "linux"))) initialState))
  = [CallVolumeRemove Background "pack-layers-dkryfmtaho" true None;
     CallVolumeRemove Background "pack-app-vcjqxelszg" true None].
Proof. vm_compute. reflexivity. Qed.

(** ** Execute *)

Lemma timesCleanupCalled_cons (e : event) (t : list event) :
  timesCleanupCalled (e :: t)
  = (if isCleanupCalled e then 1 else 0) + timesCleanupCalled t.
Proof. unfold timesCleanupCalled. cbn [filter]. now destruct (isCleanupCalled e). Qed.

(** Rewrites the run of [Execute] in the goal into its result and trace. *)
Ltac open_run w ctx opts s :=
  let Hrun := fresh "Hrun" in
  pose proof (Execute_run w ctx opts s) as Hrun; cbv zeta in Hrun;
  rewrite Hrun; clear Hrun.

(** In the case where the OS query succeeded: names the lifecycle [l] that
    [Setup] left, exposes the trace of [Cleanup] and records that the plan
    leaves plan events only. *)
Ltac expose_cleanup w ctx opts s l Hev :=
  let Hc := fresh "Hc" in
  pose proof (Cleanup_run w (final (Setup w opts s))) as Hc; cbv zeta in Hc;
  unfold result, trace; cbn [fst snd]; try rewrite Hc; cbn [fst snd]; clear Hc;
  unfold final;
  set (l := self (snd (fst (Setup w opts s)))) in *;
  pose proof (runPlan_events w l (phasePlan w ctx opts l)) as Hev;
  clearbody l.

(** Splits a membership in a trace into its cases and drops the impossible
    ones. *)
Ltac in_cases Hin Hev :=
  cbn [In app] in Hin; rewrite ?in_app_iff in Hin; cbn [In] in Hin;
  repeat match type of Hin with
    | _ \/ _ => destruct Hin as [Hin | Hin]
    end;
  try contradiction; try discriminate Hin;
  try (apply (planEvents_in _ _ Hev) in Hin; discriminate Hin).

(** C1, as the code has it. In every run in which [Setup] succeeded: when a
    phase call (prepareAppVolume, Detect, Analyze, Restore, Build or Export)
    returns an error, [Execute] returns that error, no phase is invoked
    after it and [Cleanup] is entered exactly once; when the cache clear
    returns an error, [Execute] returns that error wrapped with
    ["clearing build cache"], no phase is invoked and [Cleanup] is entered
    exactly once. When [Setup] fails, [Execute] returns its error, [Cleanup]
    is not entered and no phase is invoked. *)
Theorem C1_failure_stops_the_run (w : World) (ctx : context)
    (opts : LifecycleOptions.t) (s : state) :
  let run := Execute w ctx opts s in
  (result (Setup w opts s) = None ->
     (forall c e, In (CallPhase c (Some e)) (trace run) ->
        result run = Some e /\
        (exists pre post,
           trace run = pre ++ CallPhase c (Some e) :: post /\ phasesOf post = []) /\
        timesCleanupCalled (trace run) = 1) /\
     (forall bc ctx' e, In (CallClear bc ctx' (Some e)) (trace run) ->
        result run = Some (Wrap e "clearing build cache") /\
        phasesOf (trace run) = [] /\
        timesCleanupCalled (trace run) = 1)) /\
  (forall err, result (Setup w opts s) = Some err ->
     result run = Some err /\
     timesCleanupCalled (trace run) = 0 /\
     phasesOf (trace run) = []).
Proof.
  cbv zeta. open_run w ctx opts s. split.
  - intros Hok. destruct (Setup_succeeded w opts s Hok) as (os & Hos). rewrite Hos.
    clear Hok. expose_cleanup w ctx opts s l Hev.
    pose proof (runPlan_failed_call w l (phasePlan w ctx opts l)) as Hfail.
    pose proof (planEvents_no_cleanup _ Hev) as Hnc.
    deferred_cases w ctx opts l r tp Hplan Hclear Hres; cbn [fst snd] in *.
    + split.
      * intros c e0 Hin. in_cases Hin Hev.
      * intros bc ctx' e0 Hin. in_cases Hin Hev. injection Hin as _ _ <-.
        repeat split.
    + split.
      * intros c e0 Hin. in_cases Hin Hev.
        destruct (Hfail c e0 Hin) as (-> & pre & ->). cbn [app].
        split; [reflexivity |]. split.
        -- eexists (_ :: _ :: _ :: _ :: pre), _. split.
           ++ cbn [app]. rewrite <- app_assoc. reflexivity.
           ++ reflexivity.
        -- rewrite !timesCleanupCalled_cons, timesCleanupCalled_app, Hnc. reflexivity.
      * intros bc ctx' e0 Hin. in_cases Hin Hev.
    + split.
      * intros c e0 Hin. in_cases Hin Hev.
        destruct (Hfail c e0 Hin) as (-> & pre & ->). cbn [app].
        split; [reflexivity |]. split.
        -- eexists (_ :: _ :: pre), _. split.
           ++ cbn [app]. rewrite <- app_assoc. reflexivity.
           ++ reflexivity.
        -- rewrite !timesCleanupCalled_cons, timesCleanupCalled_app, Hnc. reflexivity.
      * intros bc ctx' e0 Hin. in_cases Hin Hev.
  - intros err Hfailed. rewrite (Setup_failed w opts s err Hfailed). repeat split.
Qed.

(** C1, as worded, fails when the cache clear fails: [Execute] returns the
    error wrapped, not the error [Clear] returned. *)
Lemma C1_counterexample_clear_error_is_wrapped :
  ~ Execute_returns_the_error clearFailsWorld liveContext
      (sampleOptions true (sampleBuilder "0.3" (inl "linux"))) initialState.
Proof.
  unfold Execute_returns_the_error. cbv zeta. intros [Hok _].
  destruct (Hok eq_refl) as [_ Hclear].
  specialize (Hclear (buildCacheOf (sampleOptions true (sampleBuilder "0.3" (inl "linux"))))
                liveContext (ErrNew "volume is in use")).
  destruct Hclear as [Hres _].
  - vm_compute. right. right. left. reflexivity.
  - vm_compute in Hres. discriminate Hres.
Qed.

Example Execute_clear_fails :
  let run := Execute clearFailsWorld liveContext
               (sampleOptions true (sampleBuilder "0.3" (inl "linux"))) initialState in
  option_map Error (result run) = Some "clearing build cache: volume is in use"%string /\
  phasesOf (trace run) = [] /\ timesCleanupCalled (trace run) = 1.
Proof. vm_compute. repeat split. Qed.

Example Execute_detect_fails :
  let run := Execute detectFailsWorld liveContext
               (sampleOptions false (sampleBuilder "0.3" (inl "linux"))) initialState in
  result run = Some (ErrNew "failed with status code: 1") /\
  phasesOf (trace run) = [PrepareAppVolume; DetectPhase] /\
  stepsOf (trace run) = ["PREPARING"; "DETECTING"]%string /\
  timesCleanupCalled (trace run) = 1.
Proof. vm_compute. repeat split. Qed.

(** C4. In every run with [ClearCache] set in which clearing the build
    cache returns an error, [Execute] returns that error wrapped with
    ["clearing build cache"] and no phase runs: the app volume is not
    prepared and none of Detect, Analyze, Restore, Build and Export is
    invoked. *)
Theorem C4_clear_failure_is_fatal (w : World) (ctx : context)
    (opts : LifecycleOptions.t) (s : state) (ctx' : context) (e : error) :
  let run := Execute w ctx opts s in
  LifecycleOptions.ClearCache opts = true ->
  In (CallClear (buildCacheOf opts) ctx' (Some e)) (trace run) ->
  result run = Some (Wrap e "clearing build cache") /\
  phasesOf (trace run) = [] /\
  (forall c r, ~ In (CallPhase c r) (trace run)) /\
  stepsOf (trace run) = [].
Proof.
  cbv zeta. intros Hset Hin.
  assert (result (Execute w ctx opts s) = Some (Wrap e "clearing build cache") /\
          phasesOf (trace (Execute w ctx opts s)) = [] /\
          stepsOf (trace (Execute w ctx opts s)) = []) as (Hres & Hnone & Hsteps).
  { revert Hin. open_run w ctx opts s.
    destruct (Image.OS (Builder.Image (LifecycleOptions.Builder opts))) as [os | err].
    - expose_cleanup w ctx opts s l Hev.
      deferred_cases w ctx opts l r tp Hplan Hclear Hres; cbn [fst snd] in *;
        intros Hin; in_cases Hin Hev.
      injection Hin as _ <-. repeat split.
    - unfold trace. cbn [snd]. intros Hin. in_cases Hin Hin. }
  repeat split; try assumption. apply phasesOf_nil. exact Hnone.
Qed.

Lemma C4_witness_clear_fails :
  let opts := sampleOptions true (sampleBuilder "0.3" (inl "linux")) in
  let run := Execute clearFailsWorld liveContext opts initialState in
  result run = Some (Wrap (ErrNew "volume is in use") "clearing build cache") /\
  phasesOf (trace run) = [] /\
  (forall c r, ~ In (CallPhase c r) (trace run)) /\
  stepsOf (trace run) = [].
Proof.
  apply (C4_clear_failure_is_fatal clearFailsWorld liveContext
           (sampleOptions true (sampleBuilder "0.3" (inl "linux"))) initialState
           liveContext (ErrNew "volume is in use")).
  - reflexivity.
  - vm_compute. right. right. left. reflexivity.
Defined.




Lemma phasePlan_phases (w : World) (ctx : context) (opts : LifecycleOptions.t)
    (l : Lifecycle.t) :
  plannedPhases (phasePlan w ctx opts l) = expectedPhases (LifecycleOptions.ClearCache opts) /\
  plannedSteps (phasePlan w ctx opts l) = allSteps.
Proof.
  unfold phasePlan. destruct (LifecycleOptions.ClearCache opts); split; reflexivity.
Qed.

(** C5, as the code has it. [Execute] does not consult
    [SupportedPlatformAPIVersions]: whatever platform API version the
    builder declares, supported or not, [Setup] records it and, when the OS
    query, the cache clear and every phase succeed, [Execute] invokes every
    phase and returns no error. *)
Theorem C5_platform_version_is_not_checked (w : World) (ctx : context)
    (opts : LifecycleOptions.t) (s : state) :
  let run := Execute w ctx opts s in
  result (Setup w opts s) = None ->
  (forall c ctx', cacheClear w c ctx' = None) ->
  (forall l c, runPhase w l c = None) ->
  result run = None /\
  phasesOf (trace run) = expectedPhases (LifecycleOptions.ClearCache opts) /\
  stepsOf (trace run) = allSteps /\
  Lifecycle.platformAPIVersion (self (final run))
  = LifecycleDescriptor.API_PlatformVersion
      (Builder.LifecycleDescriptor (LifecycleOptions.Builder opts)).
Proof.
  cbv zeta. intros Hok Hclearok Hphaseok.
  destruct (Setup_succeeded w opts s Hok) as (os & Hos). clear Hok.
  split; [| split; [| split]].
  4: { open_run w ctx opts s. rewrite Hos. unfold final at 1. cbn [fst snd].
       destruct (Setup_spec w opts s) as (l1 & Hsetup & _ & _ & Hversion & _).
       cbv zeta in Hsetup. unfold final. rewrite Hsetup. exact Hversion. }
  all: open_run w ctx opts s; rewrite Hos; expose_cleanup w ctx opts s l Hev.
  all: destruct (runPlan_all_succeed w l (phasePlan w ctx opts l)) as (Hr & Hp & Hs);
    [intros c _; apply Hphaseok |].
  all: destruct (phasePlan_phases w ctx opts l) as [Hpp Hps]; rewrite Hpp in Hp;
    rewrite Hps in Hs.
  all: unfold deferredRun;
    destruct (runPlan w l (phasePlan w ctx opts l)) as [r tp]; cbn [fst snd] in *;
    rewrite Hclearok; destruct (LifecycleOptions.ClearCache opts); cbn [fst snd].
  all: try exact Hr.
  all: unfold phasesOf, stepsOf in *; cbn [app flat_map];
    rewrite flat_map_app; rewrite ?Hp, ?Hs; cbn; rewrite ?app_nil_r; reflexivity.
Qed.

Lemma C5_witness_unsupported_platform_runs :
  let opts := sampleOptions false (sampleBuilder "0.9" (inl "linux")) in
  let run := Execute quietWorld liveContext opts initialState in
  ~ In "0.9"%string SupportedPlatformAPIVersions /\
  result run = None /\
  phasesOf (trace run) = expectedPhases false /\
  stepsOf (trace run) = allSteps /\
  Lifecycle.platformAPIVersion (self (final run)) = "0.9"%string.
Proof.
  split.
  - cbn. intros [H | [H | []]]; discriminate H.
  - apply (C5_platform_version_is_not_checked quietWorld liveContext
             (sampleOptions false (sampleBuilder "0.9" (inl "linux"))) initialState);
      reflexivity.
Defined.

(** C5, as worded, fails for a builder that declares platform API ["0.9"]:
    the run invokes every phase and returns no error. *)
Lemma C5_counterexample_unsupported_platform_runs :
  ~ Execute_refuses_unsupported_platform quietWorld liveContext
      (sampleOptions false (sampleBuilder "0.9" (inl "linux"))) initialState.
Proof.
  unfold Execute_refuses_unsupported_platform. cbv zeta. intros Hrefuse.
  destruct Hrefuse as [Hres _].
  - cbn. intros [H | [H | []]]; discriminate H.
  - apply Hres. vm_compute. reflexivity.
Qed.








Example Execute_clear_cache_skips_restore :
  let run := Execute quietWorld liveContext
               (sampleOptions true (sampleBuilder "0.3" (inl "linux"))) initialState in
  result run = None /\
  phasesOf (trace run)
  = [PrepareAppVolume; DetectPhase; AnalyzePhase; BuildPhase; ExportPhase] /\
  stepsOf (trace run) = allSteps /\
  In skipNotice (trace run).
Proof. vm_compute. repeat split. do 11 right. left. reflexivity. Qed.

Example Execute_detect_fails_without_clear_cache :
  let run := Execute detectFailsWorld liveContext
               (sampleOptions false (sampleBuilder "0.3" (inl "linux"))) initialState in
  reachesPhaseSequence (trace run) /\ ~ In RestorePhase (phasesOf (trace run)).
Proof.
  vm_compute. split; [do 2 right; left; reflexivity |].
  intros [H | [H | []]]; discriminate H.
Qed.

(** * Further properties of the orchestrator *)

(** ** Mount paths *)

Lemma append_inv_head (p a b : string) : (p ++ a = p ++ b)%string -> a = b.
Proof.
  induction p as [|c p IH]; cbn [String.append]; intros H; [exact H |].
  injection H as H. exact (IH H).
Qed.

(** X1. Whatever the prefix of a [mountPaths] value, so for every OS, the
    five mounted paths are pairwise different: no two volumes are mounted
    on the same path. *)
Theorem X1_mounted_paths_are_distinct (m : MountPaths.t) (os : string) :
  NoDup (mountedPaths m) /\ NoDup (mountedPaths (mountPathsForOS os)).
Proof.
  assert (forall m', NoDup (mountedPaths m')) as Hall.
  { intros m'. unfold mountedPaths, layersDir, appDir, appDirName, cacheDir,
      launchCacheDir, platformDir.
    repeat constructor; cbn [In]; intros Hin;
      repeat match type of Hin with
        | _ \/ _ => destruct Hin as [Hin | Hin]
        end;
      try contradiction; apply append_inv_head in Hin; discriminate Hin. }
  split; apply Hall.
Qed.

(** ** Random strings *)

(** X2. For every length [n], zero included, [randString n] returns [n]
    lowercase letters (the byte addition never leaves ['a'..'z']), takes
    exactly [n] draws from the random source, logs nothing and leaves the
    lifecycle as it was. *)
Theorem X2_randString_shape (w : World) (n : nat) (s : state) :
  let r := randString w n s in
  String.length (result r) = n /\
  Forall isLowercase (list_ascii_of_string (result r)) /\
  drawn (final r) = n + drawn s /\
  self (final r) = self s /\
  trace r = [].
Proof.
  cbv zeta. rewrite randString_run. unfold result, final, trace. cbn [fst snd self drawn].
  pose proof (proj1 (suffixes_in _ _) (letters_in_suffixes w (drawn s) n)) as [Hlen Hall].
  repeat split; [exact Hlen |].
  eapply Forall_impl; [| exact Hall]. exact lowercase_isLowercase.
Qed.

Lemma letterOf_inj (a b : nat) : a < 26 -> b < 26 -> letterOf a = letterOf b -> a = b.
Proof.
  intros Ha Hb Heq. apply (f_equal nat_of_ascii) in Heq.
  rewrite !letterOf_code in Heq by assumption. lia.
Qed.

Lemma letters_eq_iff (w w' : World) (n a b : nat) :
  letters w a n = letters w' b n <->
  forall i, i < n -> randSource w (a + i) mod 26 = randSource w' (b + i) mod 26.
Proof.
  revert a b. induction n as [|n IH]; intros a b.
  - split; [intros _ i Hi; lia | reflexivity].
  - unfold letters in *. cbn [seq map]. split.
    + intros Heq. injection Heq as Hhead Htail. intros i Hi.
      destruct i as [|i].
      * rewrite !Nat.add_0_r. apply letterOf_inj; [| | exact Hhead];
          apply Nat.mod_upper_bound; discriminate.
      * replace (a + S i) with (S a + i) by lia. replace (b + S i) with (S b + i) by lia.
        apply (proj1 (IH (S a) (S b)) Htail). lia.
    + intros Hsrc. f_equal.
      * unfold letter. specialize (Hsrc 0). rewrite !Nat.add_0_r in Hsrc.
        rewrite Hsrc by lia. reflexivity.
      * apply IH. intros i Hi. specialize (Hsrc (S i)).
        replace (S a + i) with (a + S i) by lia. replace (S b + i) with (b + S i) by lia.
        apply Hsrc. lia.
Qed.

Lemma string_of_list_ascii_inj (a b : list ascii) :
  string_of_list_ascii a = string_of_list_ascii b -> a = b.
Proof.
  intros H. apply (f_equal list_ascii_of_string) in H.
  now rewrite !list_ascii_of_string_of_list_ascii in H.
Qed.

(** ** Setup *)

(** X3. Two [Setup] calls, in any two worlds and states, name their layers
    volumes alike exactly when their first ten draws agree modulo 26, and
    their app volumes alike exactly when their next ten draws do. A second
    [Setup] on the same orchestrator takes the twenty draws that follow
    those of the first. *)
Theorem X3_setup_names_collide_iff_draws_repeat (w w' : World)
    (opts opts' : LifecycleOptions.t) (s s' : state) :
  let l := self (final (Setup w opts s)) in
  let l' := self (final (Setup w' opts' s')) in
  (Lifecycle.LayersVolume l = Lifecycle.LayersVolume l' <->
   forall i, i < 10 ->
     randSource w (drawn s + i) mod 26 = randSource w' (drawn s' + i) mod 26) /\
  (Lifecycle.AppVolume l = Lifecycle.AppVolume l' <->
   forall i, i < 10 ->
     randSource w (10 + drawn s + i) mod 26 = randSource w' (10 + drawn s' + i) mod 26) /\
  drawn (final (Setup w' opts' (final (Setup w opts s)))) = 40 + drawn s.
Proof.
  cbv zeta.
  destruct (Setup_spec w opts s) as (l1 & Hrun & Hlayers & Happ & _).
  destruct (Setup_spec w' opts' s') as (l2 & Hrun' & Hlayers' & Happ' & _).
  cbv zeta in Hrun, Hrun'. rewrite Hrun, Hrun'. unfold final. cbn [fst snd self].
  rewrite Hlayers, Hlayers', Happ, Happ'. split; [| split].
  - rewrite <- letters_eq_iff. split.
    + intros H. apply append_inv_head in H. now apply string_of_list_ascii_inj.
    + intros ->. reflexivity.
  - rewrite <- letters_eq_iff. split.
    + intros H. apply append_inv_head in H. now apply string_of_list_ascii_inj.
    + intros ->. reflexivity.
  - destruct (Setup_spec w' opts' {| self := l1; drawn := 10 + (10 + drawn s) |})
      as (l3 & Hrun3 & _).
    cbv zeta in Hrun3. rewrite Hrun3. reflexivity.
Qed.

(** X4. After every [Setup] call, the layers volume and the app volume have
    different names, so the two removals of [Cleanup] never target the same
    volume; neither name is empty. *)
Theorem X4_setup_names_two_different_volumes (w : World) (opts : LifecycleOptions.t)
    (s : state) :
  let l := self (final (Setup w opts s)) in
  Lifecycle.LayersVolume l <> Lifecycle.AppVolume l /\
  Lifecycle.LayersVolume l <> ""%string /\
  Lifecycle.AppVolume l <> ""%string.
Proof.
  cbv zeta. destruct (Setup_spec w opts s) as (l1 & Hrun & Hlayers & Happ & _).
  cbv zeta in Hrun. rewrite Hrun. unfold final. cbn [fst snd self].
  rewrite Hlayers, Happ.
  generalize (string_of_list_ascii (letters w (drawn s) 10)).
  generalize (string_of_list_ascii (letters w (10 + drawn s) 10)).
  intros a b. cbn [String.append]. repeat split; intros H; discriminate H.
Qed.

(** X5. [Setup] copies the application path, the builder, the proxy
    settings, the lifecycle and platform API versions, the default process
    type and the file filter of the options into the lifecycle and gives it
    a fresh [sync.Once], whether or not it succeeds; it never stores the
    options' volumes. When the OS query succeeds the lifecycle holds that OS
    and its mount paths; when it fails, the OS and the mount paths are left
    as they were although the volumes were already renamed. *)
Theorem X5_setup_copies_options (w : World) (opts : LifecycleOptions.t) (s : state) :
  let l0 := self s in
  let l := self (final (Setup w opts s)) in
  Lifecycle.appPath l = LifecycleOptions.AppPath opts /\
  Lifecycle.builder l = Some (LifecycleOptions.Builder opts) /\
  Lifecycle.appOnce l = Some {| done := false |} /\
  Lifecycle.httpProxy l = LifecycleOptions.HTTPProxy opts /\
  Lifecycle.httpsProxy l = LifecycleOptions.HTTPSProxy opts /\
  Lifecycle.noProxy l = LifecycleOptions.NoProxy opts /\
  Lifecycle.version l
  = LifecycleDescriptor.Info_Version
      (Builder.LifecycleDescriptor (LifecycleOptions.Builder opts)) /\
  Lifecycle.platformAPIVersion l
  = LifecycleDescriptor.API_PlatformVersion
      (Builder.LifecycleDescriptor (LifecycleOptions.Builder opts)) /\
  Lifecycle.DefaultProcessType l = LifecycleOptions.DefaultProcessType opts /\
  Lifecycle.fileFilter l = LifecycleOptions.FileFilter opts /\
  Lifecycle.Volumes l = Lifecycle.Volumes l0 /\
  match Image.OS (Builder.Image (LifecycleOptions.Builder opts)) with
  | inl os => Lifecycle.os l = os /\ Lifecycle.mountPaths l = mountPathsForOS os
  | inr _ =>
      Lifecycle.os l = Lifecycle.os l0 /\ Lifecycle.mountPaths l = Lifecycle.mountPaths l0 /\
      Lifecycle.LayersVolume l
      = ("pack-layers-" ++ string_of_list_ascii (letters w (drawn s) 10))%string
  end.
Proof.
  cbv zeta. unfold Setup, bind, final. rewrite randString_run.
  cbn -[randString letters String.append Nat.add].
  rewrite randString_run.
  cbn -[randString letters String.append Nat.add].
  destruct (Image.OS (Builder.Image (LifecycleOptions.Builder opts))) as [os | err];
    cbn -[letters String.append Nat.add]; repeat split.
Qed.

(** ** Execute *)

(** X6. [Execute] returns no error exactly when [Setup] succeeded and no
    cache clear and no phase call of the run returned an error: an error of
    a volume removal in the deferred [Cleanup] never makes [Execute] fail. *)
Theorem X6_execute_succeeds_iff_no_call_failed (w : World) (ctx : context)
    (opts : LifecycleOptions.t) (s : state) :
  let run := Execute w ctx opts s in
  result run = None <->
  (result (Setup w opts s) = None /\
   (forall c ctx' e, ~ In (CallClear c ctx' (Some e)) (trace run)) /\
   (forall c e, ~ In (CallPhase c (Some e)) (trace run))).
Proof.
  cbv zeta. rewrite Setup_result. open_run w ctx opts s.
  destruct (Image.OS (Builder.Image (LifecycleOptions.Builder opts))) as [os | err].
  - expose_cleanup w ctx opts s l Hev.
    pose proof (runPlan_failed_call w l (phasePlan w ctx opts l)) as Hfail.
    pose proof (runPlan_error_origin w l (phasePlan w ctx opts l)) as Horigin.
    deferred_cases w ctx opts l r tp Hplan Hclear Hres; cbn [fst snd] in *.
    + split; [discriminate |]. intros (_ & Hnoclear & _). exfalso.
      apply (Hnoclear (NewVolumeCache (LifecycleOptions.Image opts) "build") ctx e).
      right. right. left. reflexivity.
    + split.
      * intros ->. split; [reflexivity |]. split.
        -- intros c ctx' e Hin. in_cases Hin Hev.
        -- intros c e Hin. in_cases Hin Hev. destruct (Hfail c e Hin) as [Hr _].
           discriminate Hr.
      * intros (_ & _ & Hnophase). destruct r as [e |]; [| reflexivity]. exfalso.
        destruct (Horigin e eq_refl) as (c & _ & Hin). apply (Hnophase c e).
        cbn [app In]. do 4 right. apply in_or_app. now left.
    + split.
      * intros ->. split; [reflexivity |]. split.
        -- intros c ctx' e Hin. in_cases Hin Hev.
        -- intros c e Hin. in_cases Hin Hev. destruct (Hfail c e Hin) as [Hr _].
           discriminate Hr.
      * intros (_ & _ & Hnophase). destruct r as [e |]; [| reflexivity]. exfalso.
        destruct (Horigin e eq_refl) as (c & _ & Hin). apply (Hnophase c e).
        cbn [app In]. do 2 right. apply in_or_app. now left.
  - unfold result. cbn [fst]. split; [discriminate | intros [H _]; discriminate H].
Qed.

Lemma letters_withVolumeRemove (f : context -> string -> bool -> option error)
    (w : World) (from n : nat) :
  letters (withVolumeRemove f w) from n = letters w from n.
Proof. reflexivity. Qed.

Lemma runPlan_withVolumeRemove (f : context -> string -> bool -> option error)
    (w : World) (l : Lifecycle.t) (p : list step) :
  runPlan (withVolumeRemove f w) l p = runPlan w l p.
Proof.
  induction p as [|st p IH]; [reflexivity |].
  destruct st as [n | m | c]; cbn [runPlan withVolumeRemove runPhase]; now rewrite IH.
Qed.

Lemma Setup_withVolumeRemove (f : context -> string -> bool -> option error)
    (w : World) (opts : LifecycleOptions.t) (s : state) :
  Setup (withVolumeRemove f w) opts s = Setup w opts s.
Proof.
  unfold Setup, bind. rewrite !randString_run.
  cbn -[randString letters String.append Nat.add].
  rewrite !randString_run. rewrite !letters_withVolumeRemove. reflexivity.
Qed.

(** X7. The error, the final state and everything [Execute] does before the
    deferred [Cleanup] are the same whatever [docker.VolumeRemove] answers:
    [Execute] drops the error [Cleanup] returns. *)
Theorem X7_execute_drops_cleanup_error (f : context -> string -> bool -> option error)
    (w : World) (ctx : context) (opts : LifecycleOptions.t) (s : state) :
  result (Execute (withVolumeRemove f w) ctx opts s) = result (Execute w ctx opts s) /\
  final (Execute (withVolumeRemove f w) ctx opts s) = final (Execute w ctx opts s) /\
  filter (fun e => negb (isVolumeRemove e)) (trace (Execute (withVolumeRemove f w) ctx opts s))
  = filter (fun e => negb (isVolumeRemove e)) (trace (Execute w ctx opts s)).
Proof.
  pose proof (Execute_run (withVolumeRemove f w) ctx opts s) as Hrun'.
  pose proof (Execute_run w ctx opts s) as Hrun.
  cbv zeta in Hrun, Hrun'. rewrite Hrun, Hrun'. clear Hrun Hrun'.
  rewrite Setup_withVolumeRemove.
  set (s1 := final (Setup w opts s)).
  assert (deferredRun (withVolumeRemove f w) ctx opts (self s1)
          = deferredRun w ctx opts (self s1)) as Hdeferred.
  { unfold deferredRun.
    change (phasePlan (withVolumeRemove f w) ctx opts (self s1))
      with (phasePlan w ctx opts (self s1)).
    rewrite runPlan_withVolumeRemove. reflexivity. }
  rewrite Hdeferred. clearbody s1.
  destruct (Image.OS (Builder.Image (LifecycleOptions.Builder opts))) as [os | err];
    [| repeat split].
  pose proof (Cleanup_run (withVolumeRemove f w) s1) as Hc'.
  pose proof (Cleanup_run w s1) as Hc. cbv zeta in Hc, Hc'.
  unfold result, final, trace. cbn [fst snd]. rewrite Hc, Hc'. cbn [fst snd].
  repeat split. cbn [filter isVolumeRemove negb]. rewrite !filter_app. reflexivity.
Qed.

Lemma split_at_only (P : event -> bool) (a b pre post : list event) (x y : event) :
  filter P a = [] -> filter P b = [] -> P x = true -> P y = true ->
  a ++ y :: b = pre ++ x :: post ->
  pre = a /\ x = y /\ post = b.
Proof.
  revert pre. induction a as [|e a IH]; intros pre Ha Hb Hx Hy Heq.
  - destruct pre as [|e' pre]; cbn [app] in Heq.
    + injection Heq as -> ->. repeat split.
    + injection Heq as -> ->. exfalso.
      rewrite filter_app in Hb. cbn [filter] in Hb. rewrite Hx in Hb.
      destruct (filter P pre); discriminate Hb.
  - cbn [filter] in Ha. destruct (P e) eqn:He; [discriminate Ha |].
    destruct pre as [|e' pre]; cbn [app] in Heq.
    + injection Heq as -> _. rewrite Hx in He. discriminate He.
    + injection Heq as -> Heq. destruct (IH pre Ha Hb Hx Hy Heq) as (-> & -> & ->).
      repeat split.
Qed.

Lemma planEvents_no_cacheClear (t : list event) :
  Forall (fun e => isPlanEvent e = true) t -> filter isCacheClear t = [].
Proof.
  induction 1 as [|e t He Ht IH]; [reflexivity |].
  destruct e; cbn in *; try discriminate; exact IH.
Qed.

(** X8. The cache is cleared at most once and only before the phase
    sequence: in every run, nothing was announced and no phase was invoked
    before a [Clear] call, that call is on the build cache with the context
    of [Execute], and no [Clear] call follows it. *)
Theorem X8_clear_comes_first_and_once (w : World) (ctx : context)
    (opts : LifecycleOptions.t) (s : state)
    (pre post : list event) (c : VolumeCache) (ctx' : context) (r : option error) :
  trace (Execute w ctx opts s) = pre ++ CallClear c ctx' r :: post ->
  stepsOf pre = [] /\ phasesOf pre = [] /\
  filter isCacheClear pre = [] /\ filter isCacheClear post = [] /\
  c = buildCacheOf opts /\ ctx' = ctx /\
  LifecycleOptions.ClearCache opts = true.
Proof.
  open_run w ctx opts s.
  destruct (Image.OS (Builder.Image (LifecycleOptions.Builder opts))) as [os | err].
  - expose_cleanup w ctx opts s l Hev.
    pose proof (planEvents_no_cacheClear _ Hev) as Hnc.
    deferred_cases w ctx opts l r0 tp Hplan Hclear Hres; cbn [fst snd app] in *; intros Heq.
    + apply (split_at_only isCacheClear [_; _] [_; _; _]) in Heq;
        try reflexivity.
      destruct Heq as (-> & Hx & ->). injection Hx as -> -> _. repeat split.
    + apply (split_at_only isCacheClear [_; _] (_ :: tp ++ [_; _; _])) in Heq;
        try reflexivity.
      * destruct Heq as (-> & Hx & ->). injection Hx as -> -> _.
        repeat split. cbn [filter isCacheClear]. rewrite filter_app, Hnc. reflexivity.
      * cbn [filter isCacheClear]. rewrite filter_app, Hnc. reflexivity.
    + exfalso. apply (f_equal (filter isCacheClear)) in Heq.
      cbn [filter isCacheClear] in Heq. rewrite !filter_app, Hnc in Heq.
      cbn [filter isCacheClear app] in Heq.
      destruct (filter isCacheClear pre); discriminate Heq.
  - unfold trace. cbn [snd]. intros Heq. exfalso.
    destruct pre as [|e [|e' pre]]; discriminate Heq.
Qed.

Lemma X8_witness_clear_then_phases :
  let opts := sampleOptions true (sampleBuilder "0.3" (inl "linux")) in
  let bc := buildCacheOf opts in
  let pre := [CallOS (inl "linux"); Debugf "Using build cache volume %s" (cacheName quietWorld bc)] in
  stepsOf pre = [] /\ phasesOf pre = [] /\
  filter isCacheClear pre = [] /\
  filter isCacheClear
    (skipn 3 (trace (Execute quietWorld liveContext opts initialState))) = [] /\
  bc = buildCacheOf opts /\ liveContext = liveContext /\
  LifecycleOptions.ClearCache opts = true.
Proof.
  cbv zeta.
  apply (X8_clear_comes_first_and_once quietWorld liveContext
           (sampleOptions true (sampleBuilder "0.3" (inl "linux"))) initialState
           [CallOS (inl "linux");
            Debugf "Using build cache volume %s"
              (cacheName quietWorld
                 (buildCacheOf (sampleOptions true (sampleBuilder "0.3" (inl "linux")))))]
           (skipn 3 (trace (Execute quietWorld liveContext
                              (sampleOptions true (sampleBuilder "0.3" (inl "linux")))
                              initialState)))
           (buildCacheOf (sampleOptions true (sampleBuilder "0.3" (inl "linux"))))
           liveContext None).
  vm_compute. reflexivity.
Defined.

(** X9. The notice that the build cache was cleared is logged exactly in
    the runs in which [Clear] was called on the build cache and returned no
    error. *)
Theorem X9_cleared_notice_iff_clear_succeeded (w : World) (ctx : context)
    (opts : LifecycleOptions.t) (s : state) :
  let t := trace (Execute w ctx opts s) in
  In (Debugf "Build cache %s cleared" (cacheName w (buildCacheOf opts))) t <->
  In (CallClear (buildCacheOf opts) ctx None) t.
Proof.
  cbv zeta. unfold buildCacheOf. open_run w ctx opts s.
  destruct (Image.OS (Builder.Image (LifecycleOptions.Builder opts))) as [os | err].
  - expose_cleanup w ctx opts s l Hev.
    deferred_cases w ctx opts l r0 tp Hplan Hclear Hres; cbn [fst snd app] in *;
      split; intros Hin; in_cases Hin Hev.
    + do 2 right. left. reflexivity.
    + do 3 right. left. reflexivity.
  - unfold trace. cbn [snd]. split; intros Hin; in_cases Hin Hin.
Qed.

(** A phase call of a plan's trace is a call of the plan. *)
Lemma runPlan_calls (w : World) (l : Lifecycle.t) (p : list step)
    (c : phase_call) (r : option error) :
  In (CallPhase c r) (snd (runPlan w l p)) -> In (Run c) p.
Proof.
  induction p as [|st p IH]; cbn [runPlan]; [intros [] |].
  destruct st as [n | m | c0].
  - destruct (runPlan w l p) as [r0 t]; cbn [snd] in *.
    intros [Heq | Hin]; [discriminate Heq | right; now apply IH].
  - destruct (runPlan w l p) as [r0 t]; cbn [snd] in *.
    intros [Heq | Hin]; [discriminate Heq | right; now apply IH].
  - destruct (runPhase w l c0) as [err |].
    + cbn [snd]. intros [Heq | []]. injection Heq as -> _. now left.
    + destruct (runPlan w l p) as [r0 t]; cbn [snd] in *.
      intros [Heq | Hin]; [injection Heq as -> _; now left | right; now apply IH].
Qed.

(** X10. Every phase call of every run is made with the context given to
    [Execute] and a phase factory for the lifecycle as [Setup] left it.
    Detect and Build get the network and the volumes of the options;
    Analyze gets the image name, the build cache's name and the publish and
    clear-cache flags; Restore gets the build cache's name; Export gets the
    image name, the run image, the publish flag and the names of the launch
    cache and of the build cache. No other phase call is made. *)
Theorem X10_phase_call_arguments (w : World) (ctx : context)
    (opts : LifecycleOptions.t) (s : state) (c : phase_call) (r : option error) :
  let phaseFactory := NewDefaultPhaseFactory (self (final (Setup w opts s))) in
  let imageName := Reference.Name (LifecycleOptions.Image opts) in
  let buildCacheName := cacheName w (buildCacheOf opts) in
  let launchCacheName := cacheName w (launchCacheOf opts) in
  In (CallPhase c r) (trace (Execute w ctx opts s)) ->
  c = prepareAppVolume ctx \/
  c = Detect ctx (LifecycleOptions.Network opts) (LifecycleOptions.Volumes opts)
        phaseFactory \/
  c = Analyze ctx imageName buildCacheName (LifecycleOptions.Publish opts)
        (LifecycleOptions.ClearCache opts) phaseFactory \/
  (c = Restore ctx buildCacheName phaseFactory /\
   LifecycleOptions.ClearCache opts = false) \/
  c = Build ctx (LifecycleOptions.Network opts) (LifecycleOptions.Volumes opts)
        phaseFactory \/
  c = Export ctx imageName (LifecycleOptions.RunImage opts) (LifecycleOptions.Publish opts)
        launchCacheName buildCacheName phaseFactory.
Proof.
  cbv zeta. unfold buildCacheOf, launchCacheOf. open_run w ctx opts s.
  destruct (Image.OS (Builder.Image (LifecycleOptions.Builder opts))) as [os | err].
  - expose_cleanup w ctx opts s l Hev.
    pose proof (runPlan_calls w l (phasePlan w ctx opts l) c r) as Hcalls.
    unfold deferredRun.
    destruct (runPlan w l (phasePlan w ctx opts l)) as [r0 tp] eqn:Hplan.
    cbn [snd] in Hcalls.
    assert (In (CallPhase c r) tp -> In (Run c) (phasePlan w ctx opts l)) as Hplanned
      by exact Hcalls.
    clear Hcalls. unfold phasePlan in Hplanned.
    destruct (LifecycleOptions.ClearCache opts) eqn:Hclear;
      [destruct (cacheClear w (NewVolumeCache (LifecycleOptions.Image opts) "build") ctx)
         eqn:Hres |];
      cbn [fst snd app] in *; intros Hin; in_cases Hin Hev;
      apply Hplanned in Hin; cbn [In] in Hin;
      repeat match type of Hin with
        | _ \/ _ => destruct Hin as [Hin | Hin]
        end;
      try contradiction; try discriminate Hin; injection Hin as <-; auto 10.
  - unfold trace. cbn [snd]. intros Hin. in_cases Hin Hin.
Qed.

Lemma X10_witness_export_call :
  let w := quietWorld in
  let opts := sampleOptions false (sampleBuilder "0.3" (inl "linux")) in
  let phaseFactory := NewDefaultPhaseFactory (self (final (Setup w opts initialState))) in
  let c := Export cancelledContext "registry.example/app" "sample/run" false
             "pack-cache-0123456789ab.launch" "pack-cache-0123456789ab.build"
             phaseFactory in
  c = prepareAppVolume cancelledContext \/
  c = Detect cancelledContext "" [] phaseFactory \/
  c = Analyze cancelledContext "registry.example/app" "pack-cache-0123456789ab.build"
        false false phaseFactory \/
  (c = Restore cancelledContext "pack-cache-0123456789ab.build" phaseFactory /\
   false = false) \/
  c = Build cancelledContext "" [] phaseFactory \/
  c = Export cancelledContext "registry.example/app" "sample/run" false
        "pack-cache-0123456789ab.launch" "pack-cache-0123456789ab.build" phaseFactory.
Proof.
  cbv zeta.
  apply (X10_phase_call_arguments quietWorld cancelledContext
           (sampleOptions false (sampleBuilder "0.3" (inl "linux"))) initialState
           (Export cancelledContext "registry.example/app" "sample/run" false
              "pack-cache-0123456789ab.launch" "pack-cache-0123456789ab.build"
              (NewDefaultPhaseFactory
                 (self (final (Setup quietWorld
                                 (sampleOptions false (sampleBuilder "0.3" (inl "linux")))
                                 initialState)))))
           None).
  vm_compute. do 13 right. left. reflexivity.
Defined.
